(** * FluffyTagProcessor: a shallow embedding of [fluffytagprocessor/processor.py]

    The streaming tag scanner of the repository is embedded as a state and
    exception monad over the processor object and an abstract "world" that
    user callbacks act on.  Python [str] values are [string]; a [List[str]]
    buffer of one-character strings is a [list ascii]; a character is an
    [ascii], read as the code point 0..255; [Dict[str, _]] is a [gmap string _];
    Python [int] is [Z]. *)

From Stdlib Require Import ZArith Ascii String List Bool Lia.
From stdpp Require Import base option list strings gmap.

Local Open Scope string_scope.
Local Open Scope Z_scope.

(** ** Characters and the [str] methods the scanner uses *)

Definition chr (n : nat) : ascii := ascii_of_nat n.
Definition ord (c : ascii) : nat := nat_of_ascii c.

Definition lt_char : ascii := chr 60.        (* '<' *)
Definition gt_char : ascii := chr 62.        (* '>' *)
Definition slash_char : ascii := chr 47.     (* '/' *)
Definition lbrace_char : ascii := chr 123.   (* '{' *)
Definition rbrace_char : ascii := chr 125.   (* '}' *)
Definition dquote_char : ascii := chr 34.    (* the double quote *)
Definition squote_char : ascii := chr 39.    (* the single quote *)
Definition eq_char : ascii := chr 61.        (* '=' *)
Definition newline_char : ascii := chr 10.

Definition char_eqb (a b : ascii) : bool := Ascii.eqb a b.

Definition between (lo hi n : nat) : bool := (Nat.leb lo n && Nat.leb n hi)%bool.

(** [str.isspace] (and the regex class [\s]) on the code points 0..255. *)
Definition is_space (c : ascii) : bool :=
  let n := ord c in
  (between 9 13 n || between 28 32 n || Nat.eqb n 133 || Nat.eqb n 160)%bool.

(** The regex class [\w] on the code points 0..255. *)
Definition is_word (c : ascii) : bool :=
  let n := ord c in
  (between 48 57 n || between 65 90 n || Nat.eqb n 95 || between 97 122 n
   || Nat.eqb n 170 || between 178 179 n || Nat.eqb n 181 || between 185 186 n
   || between 188 190 n || between 192 214 n || between 216 246 n
   || between 248 255 n)%bool.

Definition is_quote (c : ascii) : bool :=
  (char_eqb c dquote_char || char_eqb c squote_char)%bool.

(** A one-character [str]. *)
Definition str1 (c : ascii) : string := String c EmptyString.

(** [''.join(buf)] and [for char in s]. *)
Definition join (buf : list ascii) : string := string_of_list_ascii buf.
Definition chars (s : string) : list ascii := list_ascii_of_string s.

Fixpoint lstrip_chars (l : list ascii) : list ascii :=
  match l with
  | c :: l' => if is_space c then lstrip_chars l' else l
  | [] => []
  end.

Definition rstrip_chars (l : list ascii) : list ascii :=
  rev (lstrip_chars (rev l)).

(** [s.strip()] *)
Definition strip (s : string) : string :=
  join (rstrip_chars (lstrip_chars (chars s))).

(** Truthiness of a [str]: [not s] holds exactly of the empty string. *)
Definition str_is_empty (s : string) : bool :=
  match s with EmptyString => true | String _ _ => false end.

Fixpoint prefix_chars (p l : list ascii) : bool :=
  match p, l with
  | [], _ => true
  | a :: p', b :: l' => (char_eqb a b && prefix_chars p' l')%bool
  | _ :: _, [] => false
  end.

(** [s.startswith(p)] and [s.endswith(p)] *)
Definition startswith (s p : string) : bool := prefix_chars (chars p) (chars s).
Definition endswith (s p : string) : bool :=
  prefix_chars (rev (chars p)) (rev (chars s)).

(** [s[a:-b]] for literal [a >= 0] and [b > 0]: the characters from index [a]
    up to (excluding) index [len(s) - b]; empty when these cross. *)
Definition slice (a b : nat) (s : string) : string :=
  let l := chars s in
  join (take (length l - b - a)%nat (drop a l)).

(** [s[:n]] *)
Definition str_take (n : nat) (s : string) : string := join (take n (chars s)).

Fixpoint span_chars (f : ascii -> bool) (l : list ascii) : list ascii * list ascii :=
  match l with
  | c :: l' =>
      if f c then let (a, b) := span_chars f l' in (c :: a, b) else ([], l)
  | [] => ([], [])
  end.

(** [s.split(maxsplit=1)]: leading white space is skipped, the first word is
    cut at the next white space, and what follows it, with its leading white
    space removed, is the second part when it is not empty. *)
Definition split_maxsplit1 (s : string) : list string :=
  match lstrip_chars (chars s) with
  | [] => []
  | l =>
      let (word, rest) := span_chars (fun c => negb (is_space c)) l in
      match lstrip_chars rest with
      | [] => [join word]
      | rest' => [join word; join rest']
      end
  end.

(** ** Attribute parsing: [re.findall] for the pattern of [_parse_attributes]

    The pattern reads: a non-empty run of word characters (group 1), optional
    white space, an equals sign, optional white space, a single or double
    quote (group 2), any run of characters other than that quote and the
    newline (group 3), and that same quote again.  Every quantifier in it is
    followed by something its own class excludes, so the greedy match is the
    only one and no backtracking is involved. *)

(** One match attempt at the head of [l]: the key, the value and what follows
    the match. *)
Definition match_attribute (l : list ascii)
  : option (list ascii * list ascii * list ascii) :=
  let (key, r1) := span_chars is_word l in
  match key with
  | [] => None
  | _ =>
      match lstrip_chars r1 with
      | e :: r2 =>
          if char_eqb e eq_char then
            match lstrip_chars r2 with
            | q :: r3 =>
                if is_quote q then
                  let (value, r4) :=
                    span_chars (fun c => negb (char_eqb c q || char_eqb c newline_char)) r3 in
                  match r4 with
                  | q' :: r5 =>
                      if char_eqb q' q then Some (key, value, r5) else None
                  | [] => None
                  end
                else None
            | [] => None
            end
          else None
      | [] => None
      end
  end.

(** [re.findall]: scan left to right; after a match the scan resumes where
    the match ended, otherwise one character further.  [skip] counts the
    characters of the last match still to step over. *)
Fixpoint findall_attributes (skip : nat) (l : list ascii)
  : list (string * string) :=
  match l with
  | [] => []
  | _ :: l' =>
      match skip with
      | S k => findall_attributes k l'
      | O =>
          match match_attribute l with
          | Some (key, value, rest) =>
              (join key, join value)
                :: findall_attributes (length l - length rest - 1)%nat l'
          | None => findall_attributes 0%nat l'
          end
      end
  end.

Definition Attrs := gmap string string.

(** [_parse_attributes]: a later match overwrites an earlier one. *)
Definition _parse_attributes (attr_text : string) : gmap string string :=
  if str_is_empty attr_text then ∅
  else
    fold_left (fun attributes kv => <[fst kv := snd kv]> attributes)
              (findall_attributes 0%nat (chars attr_text)) ∅.


(** ** Data model *)

(** Values a caller can pass where the code tests [isinstance(_, str)] or
    [isinstance(_, (list, tuple))]. *)
#[warnings="-register-all"]
Inductive pyobj :=
| PyStr (s : string)
| PyNone
| PyInt (z : Z)
| PyList (items : list pyobj)
| PyTuple (items : list pyobj).

(** [type(x).__name__] *)
Definition type_name (x : pyobj) : string :=
  match x with
  | PyStr _ => "str"
  | PyNone => "NoneType"
  | PyInt _ => "int"
  | PyList _ => "list"
  | PyTuple _ => "tuple"
  end.

(** [TagProcessorError], one constructor per place that raises it; the
    arguments are the entries of its [context] dictionary (and, for the two
    errors of the decorator and of [TagConfig], the text of the message). *)
Inductive TagProcessorError :=
| InvalidTagName (tag_name : string)
| NestedWithinItself (tag_name : string) (attributes : gmap string string)
| NoOpeningTags (tag_name : string)
| MismatchedClosingTag (expected received : string)
| StreamingCallbackError (error tag_name : string) (char : ascii)
| TagStartCallbackError (error tag_name : string) (attributes : gmap string string)
| TagHandlerError (error tag_name : string) (attributes : gmap string string)
| TagCompleteCallbackError (error tag_name : string) (attributes : gmap string string)
| UntaggedHandlerError (error content_preview : string)
| ContentMustBeString (content_type : string)
| TokensMustBeList (tokens_type : string)
| InvalidThreshold (threshold : Z)
| UnexpectedError (method_name error : string).

(** A raised exception: a [TagProcessorError], or any other exception, of
    which the code only ever reads [str(e)]. *)
Inductive exn :=
| ExTagProcessorError (e : TagProcessorError)
| ExOther (str_e : string).

Inductive result (A : Type) :=
| Return (a : A)
| Raise (e : exn).
Arguments Return {A} a.
Arguments Raise {A} e.

Section Model.

(** What user callbacks act on.  A callback is arbitrary user code: it takes
    the world to a new world and either returns or raises, in which case
    [Some (str e)] is its outcome.  Callbacks are taken not to call back into
    the processor they are registered with. *)
Context {W : Type}.

Definition Callback : Type := W -> W * option string.

Record TagConfig := mkTagConfig {
  handler : gmap string string -> string -> Callback;
  stream_content : bool;
  process_nested : bool;
  streaming_callback : option (ascii -> gmap string string -> Callback);
  allows_nested_of_same_type : bool;
  on_tag_start_callback : option (string -> gmap string string -> Callback);
  on_tag_complete_callback :
    option (string -> gmap string string -> string -> Callback)
}.

(** [parent] is the position in the stack of the enclosing context (the
    object the Python field refers to); [start_time], a clock reading that
    nothing in the scanner consults, is left out. *)
Record TagContext := mkTagContext {
  name : string;
  attributes : gmap string string;
  content : list ascii;
  parent : option nat;
  is_collecting : bool;
  config : option TagConfig
}.

Record FluffyTagProcessor := mkProcessor {
  tag_configs : gmap string TagConfig;
  tag_stack : list TagContext;          (* the top is the last element *)
  partial_buffer : list ascii;
  untagged_content : list ascii;
  in_tag : bool;
  current_tag : list ascii;
  json_depth : Z;
  in_quotes : bool;
  quote_char : string;
  untagged_content_handler : option (string -> Callback);
  debug : bool;
  error_handler : option (TagProcessorError -> Callback);
  auto_process_untagged : bool;
  auto_process_threshold : Z
}.

(** [FluffyTagProcessor.__init__] *)
Definition init (debug : bool) (error_handler : option (TagProcessorError -> Callback))
    (auto_process_untagged : bool) (auto_process_threshold : Z)
  : FluffyTagProcessor :=
  {| tag_configs := ∅; tag_stack := []; partial_buffer := [];
     untagged_content := []; in_tag := false; current_tag := [];
     json_depth := 0; in_quotes := false; quote_char := "";
     untagged_content_handler := None; debug := debug;
     error_handler := error_handler;
     auto_process_untagged := auto_process_untagged;
     auto_process_threshold := auto_process_threshold |}.

(** Attribute assignments [self.f = v]. *)
Definition set_tag_configs v (p : FluffyTagProcessor) :=
  mkProcessor v (tag_stack p) (partial_buffer p) (untagged_content p) (in_tag p)
    (current_tag p) (json_depth p) (in_quotes p) (quote_char p)
    (untagged_content_handler p) (debug p) (error_handler p)
    (auto_process_untagged p) (auto_process_threshold p).
Definition set_tag_stack v (p : FluffyTagProcessor) :=
  mkProcessor (tag_configs p) v (partial_buffer p) (untagged_content p) (in_tag p)
    (current_tag p) (json_depth p) (in_quotes p) (quote_char p)
    (untagged_content_handler p) (debug p) (error_handler p)
    (auto_process_untagged p) (auto_process_threshold p).
Definition set_partial_buffer v (p : FluffyTagProcessor) :=
  mkProcessor (tag_configs p) (tag_stack p) v (untagged_content p) (in_tag p)
    (current_tag p) (json_depth p) (in_quotes p) (quote_char p)
    (untagged_content_handler p) (debug p) (error_handler p)
    (auto_process_untagged p) (auto_process_threshold p).
Definition set_untagged_content v (p : FluffyTagProcessor) :=
  mkProcessor (tag_configs p) (tag_stack p) (partial_buffer p) v (in_tag p)
    (current_tag p) (json_depth p) (in_quotes p) (quote_char p)
    (untagged_content_handler p) (debug p) (error_handler p)
    (auto_process_untagged p) (auto_process_threshold p).
Definition set_in_tag v (p : FluffyTagProcessor) :=
  mkProcessor (tag_configs p) (tag_stack p) (partial_buffer p) (untagged_content p) v
    (current_tag p) (json_depth p) (in_quotes p) (quote_char p)
    (untagged_content_handler p) (debug p) (error_handler p)
    (auto_process_untagged p) (auto_process_threshold p).
Definition set_current_tag v (p : FluffyTagProcessor) :=
  mkProcessor (tag_configs p) (tag_stack p) (partial_buffer p) (untagged_content p)
    (in_tag p) v (json_depth p) (in_quotes p) (quote_char p)
    (untagged_content_handler p) (debug p) (error_handler p)
    (auto_process_untagged p) (auto_process_threshold p).
Definition set_json_depth v (p : FluffyTagProcessor) :=
  mkProcessor (tag_configs p) (tag_stack p) (partial_buffer p) (untagged_content p)
    (in_tag p) (current_tag p) v (in_quotes p) (quote_char p)
    (untagged_content_handler p) (debug p) (error_handler p)
    (auto_process_untagged p) (auto_process_threshold p).
Definition set_in_quotes v (p : FluffyTagProcessor) :=
  mkProcessor (tag_configs p) (tag_stack p) (partial_buffer p) (untagged_content p)
    (in_tag p) (current_tag p) (json_depth p) v (quote_char p)
    (untagged_content_handler p) (debug p) (error_handler p)
    (auto_process_untagged p) (auto_process_threshold p).
Definition set_quote_char v (p : FluffyTagProcessor) :=
  mkProcessor (tag_configs p) (tag_stack p) (partial_buffer p) (untagged_content p)
    (in_tag p) (current_tag p) (json_depth p) (in_quotes p) v
    (untagged_content_handler p) (debug p) (error_handler p)
    (auto_process_untagged p) (auto_process_threshold p).
Definition set_untagged_content_handler_field v (p : FluffyTagProcessor) :=
  mkProcessor (tag_configs p) (tag_stack p) (partial_buffer p) (untagged_content p)
    (in_tag p) (current_tag p) (json_depth p) (in_quotes p) (quote_char p)
    v (debug p) (error_handler p)
    (auto_process_untagged p) (auto_process_threshold p).
Definition set_auto_process_threshold_field v (p : FluffyTagProcessor) :=
  mkProcessor (tag_configs p) (tag_stack p) (partial_buffer p) (untagged_content p)
    (in_tag p) (current_tag p) (json_depth p) (in_quotes p) (quote_char p)
    (untagged_content_handler p) (debug p) (error_handler p)
    (auto_process_untagged p) v.

(** [context.content.append(char)] *)
Definition append_content (char : ascii) (c : TagContext) : TagContext :=
  mkTagContext (name c) (attributes c) (content c ++ [char]) (parent c)
    (is_collecting c) (config c).

(** ** The monad of methods

    A method runs on the processor and the world and returns or raises; what
    it did before raising stays done. *)
Definition M (A : Type) : Type :=
  FluffyTagProcessor -> W -> result A * FluffyTagProcessor * W.

Definition ret {A} (a : A) : M A := fun p w => (Return a, p, w).
Definition raise {A} (e : exn) : M A := fun p w => (Raise e, p, w).
Definition bind {A B} (m : M A) (f : A -> M B) : M B :=
  fun p w =>
    match m p w with
    | (Return a, p', w') => f a p' w'
    | (Raise e, p', w') => (Raise e, p', w')
    end.
Definition get : M FluffyTagProcessor := fun p w => (Return p, p, w).
Definition modify (f : FluffyTagProcessor -> FluffyTagProcessor) : M unit :=
  fun p w => (Return tt, f p, w).
Definition when (b : bool) (m : M unit) : M unit := if b then m else ret tt.

(** [try: cb(...) / except Exception as e: raise TagProcessorError(...) from e] *)
Definition try_call (cb : Callback) (wrap : string -> TagProcessorError) : M unit :=
  fun p w =>
    match cb w with
    | (w', None) => (Return tt, p, w')
    | (w', Some str_e) => (Raise (ExTagProcessorError (wrap str_e)), p, w')
    end.

End Model.

Arguments TagConfig : clear implicits.
Arguments TagContext : clear implicits.
Arguments FluffyTagProcessor : clear implicits.
Arguments Callback : clear implicits.
Arguments M : clear implicits.

Declare Scope proc_scope.
Delimit Scope proc_scope with proc.
Notation "x <- m ;; k" := (bind m (fun x => k))
  (at level 100, m at next level, right associativity) : proc_scope.
Notation "m ;; k" := (bind m (fun _ => k))
  (at level 100, right associativity) : proc_scope.

(** ** The methods of [FluffyTagProcessor] *)

Section Methods.

Context {W : Type}.
Local Open Scope proc_scope.

(** [_debug_log] only writes to the logger, which is outside the model. *)
Definition _debug_log : M W unit := ret tt.

Definition register_handler (tag_name : string)
    (handler : gmap string string -> string -> Callback W)
    (allow_nested allows_nested_of_same_type stream_content : bool)
    (streaming_callback : option (ascii -> gmap string string -> Callback W))
    (on_tag_start_callback : option (string -> gmap string string -> Callback W))
    (on_tag_complete_callback :
       option (string -> gmap string string -> string -> Callback W))
  : M W unit :=
  if str_is_empty tag_name then
    raise (ExTagProcessorError (InvalidTagName tag_name))
  else
    modify (fun p =>
      set_tag_configs
        (<[tag_name :=
             mkTagConfig handler stream_content allow_nested streaming_callback
               allows_nested_of_same_type on_tag_start_callback
               on_tag_complete_callback]> (tag_configs p)) p);;
    _debug_log.

Definition set_untagged_content_handler (handler : option (string -> Callback W))
  : M W unit :=
  modify (set_untagged_content_handler_field handler);;
  _debug_log.

Definition set_auto_process_threshold (threshold : Z) : M W unit :=
  if threshold <? 1 then raise (ExTagProcessorError (InvalidThreshold threshold))
  else modify (set_auto_process_threshold_field threshold).

Definition content_preview (trimmed_content : string) : string :=
  String.append (str_take 100 trimmed_content)
    (if 100 <? Z.of_nat (String.length trimmed_content) then "..." else "").

Definition _process_untagged_content (content : string) : M W unit :=
  let trimmed_content := strip content in
  p <- get;;
  match untagged_content_handler p with
  | Some h =>
      if negb (str_is_empty trimmed_content) then
        try_call (h trimmed_content)
          (fun e => UntaggedHandlerError e (content_preview trimmed_content));;
        _debug_log
      else ret tt
  | None => ret tt
  end.

Definition _handle_opening_tag (tag_name : string)
    (attributes : gmap string string) : M W unit :=
  p <- get;;
  match tag_configs p !! tag_name with
  | None => _debug_log
  | Some config =>
      when (negb (allows_nested_of_same_type config))
        (let has_parent_of_same_type :=
           existsb (fun context => String.eqb (name context) tag_name)
                   (tag_stack p) in
         when has_parent_of_same_type
           (raise (ExTagProcessorError (NestedWithinItself tag_name attributes))));;
      let context :=
        mkTagContext tag_name attributes []
          (match tag_stack p with
           | [] => None
           | _ => Some (length (tag_stack p) - 1)%nat
           end)
          true (Some config) in
      match on_tag_start_callback config with
      | Some cb =>
          try_call (cb tag_name attributes)
            (fun e => TagStartCallbackError e tag_name attributes)
      | None => ret tt
      end;;
      modify (fun p => set_tag_stack (tag_stack p ++ [context]) p);;
      _debug_log
  end.

Definition _handle_self_closing_tag (tag_name : string)
    (attributes : gmap string string) : M W unit :=
  p <- get;;
  match tag_configs p !! tag_name with
  | None => _debug_log
  | Some config =>
      _debug_log;;
      match on_tag_start_callback config with
      | Some cb =>
          try_call (cb tag_name attributes)
            (fun e => TagStartCallbackError e tag_name attributes)
      | None => ret tt
      end;;
      try_call (handler config attributes "")
        (fun e => TagHandlerError e tag_name attributes);;
      match on_tag_complete_callback config with
      | Some cb =>
          try_call (cb tag_name attributes "")
            (fun e => TagCompleteCallbackError e tag_name attributes)
      | None => ret tt
      end
  end.

Definition _handle_closing_tag (tag_name : string) : M W unit :=
  p <- get;;
  match last (tag_stack p) with
  | None => raise (ExTagProcessorError (NoOpeningTags tag_name))
  | Some last_tag =>
      if String.eqb (name last_tag) tag_name then
        modify (fun p => set_tag_stack (removelast (tag_stack p)) p);;
        let context := last_tag in
        let content := join (content context) in
        _debug_log;;
        match config context with
        | Some cfg =>
            try_call (handler cfg (attributes context) content)
              (fun e => TagHandlerError e tag_name (attributes context))
        | None => ret tt
        end;;
        match config context with
        | Some cfg =>
            match on_tag_complete_callback cfg with
            | Some cb =>
                try_call (cb tag_name (attributes context) content)
                  (fun e => TagCompleteCallbackError e tag_name (attributes context))
            | None => ret tt
            end
        | None => ret tt
        end
      else
        raise (ExTagProcessorError (MismatchedClosingTag (name last_tag) tag_name))
  end.

(** [parts[0]] and [parts[1] if len(parts) > 1 else ""] after
    [split(maxsplit=1)]; an empty [parts] is an [IndexError]. *)
Definition name_and_attributes (tag_content : string)
    (k : string -> gmap string string -> M W unit) : M W unit :=
  match split_maxsplit1 tag_content with
  | [] => raise (ExOther "list index out of range")
  | tag_name :: rest =>
      k tag_name (_parse_attributes (match rest with a :: _ => a | [] => "" end))
  end.

Definition _process_complete_tag (tag_content : string) : M W unit :=
  let tag_content := strip tag_content in
  if startswith tag_content "</" then
    let tag_name := strip (slice 2 1 tag_content) in
    _handle_closing_tag tag_name
  else if endswith tag_content "/>" then
    name_and_attributes (strip (slice 1 2 tag_content)) _handle_self_closing_tag
  else
    name_and_attributes (strip (slice 1 1 tag_content)) _handle_opening_tag.

(** [context.content.append(char)] on [self.tag_stack[-1]] *)
Definition append_to_top (char : ascii) (stack : list (TagContext W))
  : list (TagContext W) :=
  match last stack with
  | Some context => removelast stack ++ [append_content char context]
  | None => stack
  end.

(** [_process_char], in the three blocks of the source.  First block:
    "Handle quotes inside JSON". *)
Definition track_quotes (char : ascii) : M W unit :=
  p <- get;;
  when (is_quote char && (0 <? json_depth p))
    (if negb (in_quotes p) then
       modify (set_in_quotes true);;
       modify (set_quote_char (str1 char))
     else if String.eqb (str1 char) (quote_char p) then
       modify (set_in_quotes false);;
       modify (set_quote_char "")
     else ret tt).

(** Second block: "Track JSON depth". *)
Definition track_depth (char : ascii) : M W unit :=
  p <- get;;
  when (negb (in_quotes p))
    (if char_eqb char lbrace_char then
       modify (set_json_depth (json_depth p + 1))
     else if char_eqb char rbrace_char then
       modify (set_json_depth (Z.max 0 (json_depth p - 1)))
     else ret tt).

(** [if self.untagged_content: self._process_untagged_content(...); self.untagged_content = []] *)
Definition flush_untagged : M W unit :=
  p <- get;;
  when (negb (match untagged_content p with [] => true | _ => false end))
    (_process_untagged_content (join (untagged_content p));;
     modify (set_untagged_content [])).

(** Third block: "Handle tag markers", "Handle characters inside a tag",
    "Handle characters inside content" and "Auto-process untagged content
    when threshold is reached"; the early [return] of the first is the
    [then] branch. *)
Definition dispatch_char (char : ascii) : M W unit :=
  p <- get;;
  if char_eqb char lt_char && negb (in_quotes p) && (json_depth p =? 0) then
    flush_untagged;;
    modify (set_in_tag true);;
    modify (set_current_tag [char])
  else
    (if in_tag p then
       modify (fun p => set_current_tag (current_tag p ++ [char]) p);;
       when (char_eqb char gt_char)
         (p <- get;;
          _process_complete_tag (join (current_tag p));;
          modify (set_in_tag false);;
          modify (set_current_tag []))
     else
       match last (tag_stack p) with
       | Some context =>
           modify (fun p => set_tag_stack (append_to_top char (tag_stack p)) p);;
           match config context with
           | Some cfg =>
               match streaming_callback cfg with
               | Some cb =>
                   try_call (cb char (attributes context))
                     (fun e => StreamingCallbackError e (name context) char)
               | None => ret tt
               end
           | None => ret tt
           end
       | None =>
           modify (fun p => set_untagged_content (untagged_content p ++ [char]) p)
       end);;
    p <- get;;
    when (auto_process_untagged p
          && (auto_process_threshold p <? Z.of_nat (length (untagged_content p))))
      (_process_untagged_content (join (untagged_content p));;
       modify (set_untagged_content [])).

Definition _process_char (char : ascii) : M W unit :=
  track_quotes char;;
  track_depth char;;
  dispatch_char char.

(** [for char in token: self._process_char(char)] *)
Fixpoint process_chars (l : list ascii) : M W unit :=
  match l with
  | [] => ret tt
  | char :: l' => _process_char char;; process_chars l'
  end.

Definition _process_token_internal (token : string) : M W unit :=
  process_chars (chars token).

(** The decorator [error_handler]: a [TagProcessorError] goes to the
    processor's error handler when there is one and is dropped otherwise
    (logging aside); any other exception is first wrapped.  The wrapper then
    returns [None]; an exception of the error handler itself leaves it. *)
Definition error_handler_decorator {A} (method_name : string) (method : M W A)
  : M W (option A) :=
  fun p w =>
    match method p w with
    | (Return a, p', w') => (Return (Some a), p', w')
    | (Raise x, p', w') =>
        let error :=
          match x with
          | ExTagProcessorError e => e
          | ExOther str_e => UnexpectedError method_name str_e
          end in
        match error_handler p' with
        | Some h =>
            match h error w' with
            | (w'', None) => (Return None, p', w'')
            | (w'', Some str_e) => (Raise (ExOther str_e), p', w'')
            end
        | None => (Return None, p', w')
        end
    end.

(** [process_token]; the result is [Some tt] for [self] and [None] for the
    [None] the decorator returns after an exception. *)
Definition process_token (token : pyobj) : M W (option unit) :=
  error_handler_decorator "process_token"
    (match token with
     | PyStr s =>
         if str_is_empty s then ret tt
         else if str_is_empty (strip s) then ret tt
         else _process_token_internal s
     | _ => ret tt
     end).

Fixpoint process_token_each (tokens : list pyobj) : M W unit :=
  match tokens with
  | [] => ret tt
  | token :: tokens' => process_token token;; process_token_each tokens'
  end.

Definition process_tokens (tokens : pyobj) : M W unit :=
  match tokens with
  | PyList items | PyTuple items => process_token_each items
  | _ => raise (ExTagProcessorError (TokensMustBeList (type_name tokens)))
  end.

Definition process_string (content : pyobj) : M W (option unit) :=
  match content with
  | PyStr _ => process_token content
  | _ => raise (ExTagProcessorError (ContentMustBeString (type_name content)))
  end.

Definition reset : M W unit :=
  modify (set_tag_stack []);;
  modify (set_partial_buffer []);;
  modify (set_untagged_content []);;
  modify (set_in_tag false);;
  modify (set_current_tag []);;
  modify (set_json_depth 0);;
  modify (set_in_quotes false);;
  modify (set_quote_char "");;
  _debug_log.

Definition flush : M W unit :=
  flush_untagged;;
  p <- get;;
  when (negb (match tag_stack p with [] => true | _ => false end)) _debug_log.

Definition get_stack_depth (p : FluffyTagProcessor W) : Z :=
  Z.of_nat (length (tag_stack p)).

Definition is_inside_tag (tag_name : string) (p : FluffyTagProcessor W) : bool :=
  existsb (fun context => String.eqb (name context) tag_name) (tag_stack p).

End Methods.

(** ** A recording world

    To observe callbacks the world is instantiated with the list of the
    invocations made so far; each callback appends its own invocation. *)

Module Trace.

Inductive Event :=
| TagStart (tag_name : string) (attributes : gmap string string)
| Handler (tag : string) (attributes : gmap string string) (content : string)
| TagComplete (tag_name : string) (attributes : gmap string string) (content : string)
| Streamed (tag : string) (char : ascii) (attributes : gmap string string)
| Untagged (content : string)
| Reported (e : TagProcessorError).

Definition log (ev : Event) : Callback (list Event) :=
  fun w => ((w ++ [ev])%list, None).

(** A callback that records its invocation and then raises. *)
Definition log_and_raise (ev : Event) (str_e : string) : Callback (list Event) :=
  fun w => ((w ++ [ev])%list, Some str_e).

(** A fresh processor with default arguments and no error handler. *)
Definition fresh : FluffyTagProcessor (list Event) := init false None true 20.

(** [register_handler(tag, h)] with a recording handler and defaults. *)
Definition register_plain (tag : string) : M (list Event) unit :=
  register_handler tag (fun a c => log (Handler tag a c))
    true false true None None None.

(** The same with recording start, streaming and complete callbacks. *)
Definition register_full (tag : string) (allows_nested_of_same_type : bool)
  : M (list Event) unit :=
  register_handler tag (fun a c => log (Handler tag a c))
    true allows_nested_of_same_type true
    (Some (fun ch a => log (Streamed tag ch a)))
    (Some (fun n a => log (TagStart n a)))
    (Some (fun n a c => log (TagComplete n a c))).

(** Run a method on a processor with an empty record of invocations. *)
Definition run {A} (m : M (list Event) A) (p : FluffyTagProcessor (list Event)) :=
  m p [].

(** The processor a method leaves behind. *)
Definition after {A} (m : M (list Event) A) (p : FluffyTagProcessor (list Event))
  : FluffyTagProcessor (list Event) :=
  snd (fst (m p [])).

Definition events {A} (r : result A * FluffyTagProcessor (list Event) * list Event)
  : list Event := snd r.
Definition outcome {A} (r : result A * FluffyTagProcessor (list Event) * list Event)
  : result A := fst (fst r).
Definition final {A} (r : result A * FluffyTagProcessor (list Event) * list Event)
  : FluffyTagProcessor (list Event) := snd (fst r).

(** A processor with plain handlers for tags [a] and [b]. *)
Definition with_a_b : FluffyTagProcessor (list Event) :=
  after (bind (register_plain "a") (fun _ => register_plain "b")) fresh.

(** A processor that also records untagged content. *)
Definition with_a_b_untagged : FluffyTagProcessor (list Event) :=
  after (set_untagged_content_handler (Some (fun c => log (Untagged c)))) with_a_b.

(** A processor whose error handler records what it is given. *)
Definition reporting : FluffyTagProcessor (list Event) :=
  init false (Some (fun e => log (Reported e))) true 20.

Definition reporting_a_b : FluffyTagProcessor (list Event) :=
  after (bind (register_plain "a") (fun _ => register_plain "b")) reporting.

(** A processor with every callback of tag [a] recording. *)
Definition with_full_a : FluffyTagProcessor (list Event) :=
  after (register_full "a" false) fresh.

(** The configurations these registrations store. *)
Definition plain_config (tag : string) : TagConfig (list Event) :=
  mkTagConfig (fun a c => log (Handler tag a c)) true true None false None None.

Definition full_config (tag : string) (allows_nested_of_same_type : bool)
  : TagConfig (list Event) :=
  mkTagConfig (fun a c => log (Handler tag a c)) true true
    (Some (fun ch a => log (Streamed tag ch a)))
    allows_nested_of_same_type
    (Some (fun n a => log (TagStart n a)))
    (Some (fun n a c => log (TagComplete n a c))).

(** The context of an open [<a>] with the given content so far. *)
Definition context_a (content : list ascii) : TagContext (list Event) :=
  mkTagContext "a" ∅ content None true (Some (plain_config "a")).

(** After [<a>], and after [<a>] and an opening brace. *)
Definition open_a : FluffyTagProcessor (list Event) :=
  after (process_token (PyStr "<a>")) with_a_b.

Definition open_a_brace : FluffyTagProcessor (list Event) :=
  after (process_token (PyStr "<a>{")) with_a_b.

(** The names on the stack, bottom first. *)
Definition names (p : FluffyTagProcessor (list Event)) : list string :=
  map name (tag_stack p).

(** The JSON text of the specification's example: an object with key [x]
    and the string value [<not-a-tag>], in double quotes. *)
Definition dq : string := str1 dquote_char.
Definition json_body : string :=
  String.concat "" ["{"; dq; "x"; dq; ": "; dq; "<not-a-tag>"; dq; "}"].

(** Configurations whose start callback, or whose handler, records its
    invocation and raises. *)
Definition failing_start_config : TagConfig (list Event) :=
  mkTagConfig (fun a c => log (Handler "a" a c)) true true None false
    (Some (fun n a => log_and_raise (TagStart n a) "boom")) None.

Definition failing_handler_config : TagConfig (list Event) :=
  mkTagConfig (fun a c => log_and_raise (Handler "a" a c) "boom")
    true true None false None None.

Definition with_failing_start : FluffyTagProcessor (list Event) :=
  set_tag_configs {["a" := failing_start_config]} fresh.

Definition with_failing_handler : FluffyTagProcessor (list Event) :=
  set_tag_configs {["a" := failing_handler_config]} fresh.

(** After [<a>x] with the failing handler registered. *)
Definition open_failing : FluffyTagProcessor (list Event) :=
  after (process_token (PyStr "<a>x")) with_failing_handler.

Definition context_failing : TagContext (list Event) :=
  mkTagContext "a" ∅ (chars "x") None true (Some failing_handler_config).

(** After [<a>] with every callback of [a] recording. *)
Definition open_full_a : FluffyTagProcessor (list Event) :=
  after (process_token (PyStr "<a>")) with_full_a.

Definition context_full_a : TagContext (list Event) :=
  mkTagContext "a" ∅ [] None true (Some (full_config "a" false)).

(** After the untagged text [hi], with the recording untagged handler. *)
Definition pending_hi : FluffyTagProcessor (list Event) :=
  after (process_token (PyStr "hi")) with_a_b_untagged.

(** After the characters [</x], on an empty stack. *)
Definition in_closing_token : FluffyTagProcessor (list Event) :=
  after (process_token (PyStr "</x")) fresh.



End Trace.

(** ** Vocabulary of the properties *)

Section Vocabulary.

Context {W : Type}.

(** "[cb] if configured": an absent callback does nothing. *)
Definition call_if_configured {X} (cb : option X) (invoke : X -> Callback W)
  : Callback W :=
  match cb with
  | Some f => invoke f
  | None => fun w => (w, None)
  end.

(** The quote flag is only ever up inside braces, with the quote that raised
    it on record. *)
Definition tracker_inv (p : FluffyTagProcessor W) : Prop :=
  in_quotes p = true ->
  1 <= json_depth p
  /\ (quote_char p = str1 dquote_char \/ quote_char p = str1 squote_char).

(** Processors reachable from a freshly constructed one through the public
    methods, or through single characters. *)
Inductive reachable : FluffyTagProcessor W -> Prop :=
| reach_init d eh a t : reachable (init d eh a t)
| reach_char c p w :
    reachable p -> reachable (snd (fst (_process_char c p w)))
| reach_token tok p w :
    reachable p -> reachable (snd (fst (process_token tok p w)))
| reach_tokens toks p w :
    reachable p -> reachable (snd (fst (process_tokens toks p w)))
| reach_string s p w :
    reachable p -> reachable (snd (fst (process_string s p w)))
| reach_reset p w :
    reachable p -> reachable (snd (fst (reset p w)))
| reach_flush p w :
    reachable p -> reachable (snd (fst (flush p w)))
| reach_register n h a b c d e f p w :
    reachable p -> reachable (snd (fst (register_handler n h a b c d e f p w)))
| reach_set_untagged h p w :
    reachable p -> reachable (snd (fst (set_untagged_content_handler h p w)))
| reach_set_threshold t p w :
    reachable p -> reachable (snd (fst (set_auto_process_threshold t p w))).

(** The concatenation of the chunks of a stream. *)
Definition concat_str (chunks : list string) : string :=
  fold_right String.append "" chunks.

(** A [str] that [strip] empties. *)
Definition blank (s : string) : bool := str_is_empty (strip s).

(** [stable_on f m]: running [m] never changes the view [f] of the
    processor, whether [m] returns or raises. *)
Definition stable_on {X A} (f : FluffyTagProcessor W -> X) (m : M W A) : Prop :=
  forall p w, f (snd (fst (m p w))) = f p.

(** [preserves I m]: running [m] keeps the property [I] of the processor. *)
Definition preserves {A} (I : FluffyTagProcessor W -> Prop) (m : M W A) : Prop :=
  forall p w, I p -> I (snd (fst (m p w))).

(** The quote and depth tracker. *)
Definition tracker_view (p : FluffyTagProcessor W) : Z * bool * string :=
  (json_depth p, in_quotes p, quote_char p).

(** What [<] does when it is taken for the start of a tag. *)
Definition begin_tag_token : M W unit :=
  bind flush_untagged (fun _ =>
  bind (modify (set_in_tag true)) (fun _ =>
  modify (set_current_tag [lt_char]))).

(** The lexer mode and the stack, with the tracker. *)
Definition lexer_view (p : FluffyTagProcessor W)
  : list (TagContext W) * bool * list ascii * (Z * bool * string) :=
  (tag_stack p, in_tag p, current_tag p, tracker_view p).

(** The first two blocks of [_process_char] read as a function on the
    tracker: the quote toggle, then the depth count. *)
Definition tracker_step (c : ascii) (t : Z * bool * string) : Z * bool * string :=
  let '(d, q, qc) := t in
  let '(q1, qc1) :=
    if is_quote c && (0 <? d) then
      if negb q then (true, str1 c)
      else if String.eqb (str1 c) qc then (false, "")
      else (q, qc)
    else (q, qc) in
  let d1 :=
    if negb q1 then
      if char_eqb c lbrace_char then d + 1
      else if char_eqb c rbrace_char then Z.max 0 (d - 1)
      else d
    else d in
  (d1, q1, qc1).

Definition tracker_run (t : Z * bool * string) (l : list ascii)
  : Z * bool * string :=
  fold_left (fun t c => tracker_step c t) l t.

Definition with_tracker (t : Z * bool * string) (p : FluffyTagProcessor W)
  : FluffyTagProcessor W :=
  let '(d, q, qc) := t in
  set_quote_char qc (set_in_quotes q (set_json_depth d p)).

(** The test of the "Handle tag markers" block, on the updated tracker. *)
Definition marks_tag (c : ascii) (t : Z * bool * string) : bool :=
  let '(d, q, _) := t in
  char_eqb c lt_char && negb q && (d =? 0).

(** A text in which no character is taken for the start of a tag: every
    [<] in it stands inside braces or inside a quoted string. *)
Fixpoint shielded (t : Z * bool * string) (l : list ascii) : bool :=
  match l with
  | [] => true
  | c :: l' =>
      let t' := tracker_step c t in
      negb (marks_tag c t') && shielded t' l'
  end.

(** The test of the "Auto-process untagged content" block. *)
Definition untagged_flush_due (p : FluffyTagProcessor W) : bool :=
  auto_process_untagged p
  && (auto_process_threshold p <? Z.of_nat (length (untagged_content p))).

(** [context.content.extend(l)] *)
Definition append_all (l : list ascii) (c : TagContext W) : TagContext W :=
  mkTagContext (name c) (attributes c) (content c ++ l) (parent c)
    (is_collecting c) (config c).

(** What registration and configuration set, as opposed to what scanning
    moves. *)
Definition settings_view (p : FluffyTagProcessor W) :=
  (tag_configs p, untagged_content_handler p, error_handler p, debug p,
   auto_process_untagged p, auto_process_threshold p).

Definition scanning_view (p : FluffyTagProcessor W) :=
  (tag_stack p, partial_buffer p, untagged_content p, in_tag p, current_tag p,
   tracker_view p).

(** The context [_handle_opening_tag] builds for a tag opened on [stack]. *)
Definition new_context (tag_name : string) (attributes : gmap string string)
    (cfg : TagConfig W) (stack : list (TagContext W)) : TagContext W :=
  mkTagContext tag_name attributes []
    (match stack with [] => None | _ => Some (length stack - 1)%nat end)
    true (Some cfg).

(** The error the decorator hands on for a raised exception. *)
Definition boundary_error (method_name : string) (x : exn) : TagProcessorError :=
  match x with
  | ExTagProcessorError e => e
  | ExOther str_e => UnexpectedError method_name str_e
  end.

(** The tokens [process_token] acts on: non-blank strings. *)
Definition is_fed (tok : pyobj) : bool :=
  match tok with
  | PyStr s => negb (blank s)
  | _ => false
  end.

(** Characters that mean nothing to the scanner at depth 0: no tag bracket
    and no brace. *)
Definition token_plain (c : ascii) : bool :=
  negb (char_eqb c lt_char || char_eqb c gt_char
        || char_eqb c lbrace_char || char_eqb c rbrace_char).



End Vocabulary.

(** ** Stack machine: the three structural errors and the self-close path *)

Section StackMachine.

Context {W : Type}.
Implicit Types (p : FluffyTagProcessor W) (w : W).

(** C9. [reset()] puts every piece of scanning state back to its initial
    value (empty stack, empty buffers, [in_tag] false, [json_depth] 0,
    [in_quotes] false, [quote_char] cleared), returns normally without
    calling anything, and leaves the registry, the untagged-content handler
    and the other settings as they were. *)
Theorem reset_clears_scanning_state p w :
  exists p',
    reset p w = (Return tt, p', w)
    /\ tag_stack p' = [] /\ partial_buffer p' = [] /\ untagged_content p' = []
    /\ current_tag p' = [] /\ in_tag p' = false /\ json_depth p' = 0
    /\ in_quotes p' = false /\ quote_char p' = ""
    /\ tag_configs p' = tag_configs p
    /\ untagged_content_handler p' = untagged_content_handler p
    /\ error_handler p' = error_handler p /\ debug p' = debug p
    /\ auto_process_untagged p' = auto_process_untagged p
    /\ auto_process_threshold p' = auto_process_threshold p.
Proof.
  eexists. split; [reflexivity|]. cbn. repeat split.
Qed.

(** C3. With a non-empty stack, a closing tag whose name differs from the
    name of the top context raises the mismatch error carrying the expected
    (top) name and the received name; the processor, and with it the stack,
    is left as it was and no callback runs (the world is untouched). *)
Theorem mismatched_closing_tag p w tag_name (top : TagContext W) :
  last (tag_stack p) = Some top ->
  name top <> tag_name ->
  _handle_closing_tag tag_name p w
  = (Raise (ExTagProcessorError (MismatchedClosingTag (name top) tag_name)), p, w).
Proof.
  intros Htop Hne.
  unfold _handle_closing_tag, bind, get. rewrite Htop.
  apply String.eqb_neq in Hne. rewrite Hne. reflexivity.
Qed.

(** Inside [_handle_closing_tag], a closing tag met while the stack is empty
    raises the "no opening tags" error instead of being skipped; the method
    itself changes nothing of the processor (nor of the world). *)
Lemma handle_closing_on_empty_stack p w tag_name :
  tag_stack p = [] ->
  _handle_closing_tag tag_name p w
  = (Raise (ExTagProcessorError (NoOpeningTags tag_name)), p, w).
Proof.
  intros Hempty. unfold _handle_closing_tag, bind, get.
  rewrite Hempty. reflexivity.
Qed.

(** C4. Opening a tag registered with [allows_nested_of_same_type = False]
    while a context of that name is anywhere on the stack raises the nesting
    error; no context is pushed: the processor is left as it was, and no
    callback runs. *)
Theorem nested_same_type_rejected p w tag_name attrs cfg (ctx : TagContext W) :
  tag_configs p !! tag_name = Some cfg ->
  allows_nested_of_same_type cfg = false ->
  ctx ∈ tag_stack p ->
  name ctx = tag_name ->
  _handle_opening_tag tag_name attrs p w
  = (Raise (ExTagProcessorError (NestedWithinItself tag_name attrs)), p, w).
Proof.
  intros Hcfg Hflag Hin Hname.
  assert (Hex : existsb (fun context : TagContext W =>
                           String.eqb (name context) tag_name) (tag_stack p) = true).
  { apply existsb_exists. exists ctx. split.
    - by apply list_elem_of_In.
    - by apply String.eqb_eq. }
  unfold _handle_opening_tag, bind, get. rewrite Hcfg, Hflag. cbn.
  rewrite Hex. reflexivity.
Qed.

(** The self-close path never touches the processor, whatever the callbacks
    do. *)
Lemma self_closing_keeps_processor p w tag_name attrs :
  snd (fst (_handle_self_closing_tag tag_name attrs p w)) = p.
Proof.
  unfold _handle_self_closing_tag, bind, get, _debug_log, ret, try_call.
  destruct (tag_configs p !! tag_name) as [cfg|]; [|reflexivity].
  destruct (on_tag_start_callback cfg) as [cb|]; cbn.
  - destruct (cb tag_name attrs w) as [w1 [e|]]; [reflexivity|].
    destruct (handler cfg attrs "" w1) as [w2 [e|]]; [reflexivity|].
    destruct (on_tag_complete_callback cfg) as [cc|]; [|reflexivity].
    destruct (cc tag_name attrs "" w2) as [w3 [e|]]; reflexivity.
  - destruct (handler cfg attrs "" w) as [w2 [e|]]; [reflexivity|].
    destruct (on_tag_complete_callback cfg) as [cc|]; [|reflexivity].
    destruct (cc tag_name attrs "" w2) as [w3 [e|]]; reflexivity.
Qed.


End StackMachine.

(** ** Frames: what a method leaves alone *)

Section Frames.

Context {W : Type}.


Section Rules.

Context {X : Type} (f : FluffyTagProcessor W -> X).

Lemma stable_ret {A} (a : A) : stable_on f (ret a).
Proof. intros p w. reflexivity. Qed.

Lemma stable_raise {A} e : stable_on f (@raise W A e).
Proof. intros p w. reflexivity. Qed.

Lemma stable_get : stable_on f get.
Proof. intros p w. reflexivity. Qed.

Lemma stable_modify g : (forall p, f (g p) = f p) -> stable_on f (modify g).
Proof. intros Hg p w. apply Hg. Qed.

Lemma stable_try_call cb wrap : stable_on f (try_call cb wrap).
Proof.
  intros p w. unfold try_call. destruct (cb w) as [w' [e|]]; reflexivity.
Qed.

Lemma stable_bind {A B} (m : M W A) (k : A -> M W B) :
  stable_on f m -> (forall a, stable_on f (k a)) -> stable_on f (bind m k).
Proof.
  intros Hm Hk p w. unfold bind.
  specialize (Hm p w). destruct (m p w) as [[[a|e] p1] w1]; cbn in *.
  - rewrite (Hk a p1 w1). exact Hm.
  - exact Hm.
Qed.

Lemma stable_when b (m : M W unit) : stable_on f m -> stable_on f (when b m).
Proof. intros Hm. destruct b; [exact Hm | apply stable_ret]. Qed.

Lemma stable_debug_log : stable_on f _debug_log.
Proof. apply stable_ret. Qed.

End Rules.

End Frames.

Create HintDb stable.
#[local] Hint Resolve stable_ret stable_raise stable_get stable_try_call
  stable_debug_log : stable.

(** Break a method down by the rules; leaves only the [modify] steps whose
    update the view might see. *)
Ltac stable_steps :=
  repeat first
    [ progress eauto 2 with stable
    | apply stable_bind; [| intros ?]
    | apply stable_when
    | apply stable_modify; intros ?; try reflexivity
    | match goal with
      | |- stable_on _ (match ?x with _ => _ end) => destruct x
      | |- stable_on _ (let (_, _) := ?x in _) => destruct x
      end ].

Section ScannerFrames.

Context {W X : Type} (f : FluffyTagProcessor W -> X).

(** A view that does not look at the stack, the two buffers and [in_tag]. *)
Hypothesis f_stack : forall v p, f (set_tag_stack v p) = f p.
Hypothesis f_untagged : forall v p, f (set_untagged_content v p) = f p.
Hypothesis f_in_tag : forall v p, f (set_in_tag v p) = f p.
Hypothesis f_current : forall v p, f (set_current_tag v p) = f p.

Lemma stable_process_untagged_content content :
  stable_on f (_process_untagged_content content).
Proof. unfold _process_untagged_content. stable_steps. Qed.

Lemma stable_flush_untagged : stable_on f flush_untagged.
Proof.
  unfold flush_untagged. stable_steps; auto using stable_process_untagged_content.
Qed.

Lemma stable_handle_opening_tag n a : stable_on f (_handle_opening_tag n a).
Proof. unfold _handle_opening_tag. stable_steps; auto. Qed.

Lemma stable_handle_self_closing_tag n a :
  stable_on f (_handle_self_closing_tag n a).
Proof. unfold _handle_self_closing_tag. stable_steps. Qed.

Lemma stable_handle_closing_tag n : stable_on f (_handle_closing_tag n).
Proof. unfold _handle_closing_tag. stable_steps; auto. Qed.

Lemma stable_process_complete_tag t : stable_on f (_process_complete_tag t).
Proof.
  unfold _process_complete_tag, name_and_attributes.
  stable_steps;
    auto using stable_handle_closing_tag, stable_handle_self_closing_tag,
               stable_handle_opening_tag.
Qed.

Lemma stable_dispatch_char c : stable_on f (dispatch_char c).
Proof.
  unfold dispatch_char.
  stable_steps;
    auto using stable_flush_untagged, stable_process_complete_tag,
               stable_process_untagged_content.
Qed.

(** A view that in addition does not look at the quote and depth tracker. *)
Hypothesis f_depth : forall v p, f (set_json_depth v p) = f p.
Hypothesis f_in_quotes : forall v p, f (set_in_quotes v p) = f p.
Hypothesis f_quote_char : forall v p, f (set_quote_char v p) = f p.

Lemma stable_process_char c : stable_on f (_process_char c).
Proof.
  unfold _process_char, track_quotes, track_depth.
  stable_steps;
    auto using stable_dispatch_char, stable_flush_untagged,
               stable_process_complete_tag, stable_process_untagged_content.
Qed.

Lemma stable_process_chars l : stable_on f (process_chars l).
Proof.
  induction l as [|c l IH]; cbn.
  - apply stable_ret.
  - apply stable_bind; [apply stable_process_char | intros _; exact IH].
Qed.

End ScannerFrames.

(** ** The quote and depth tracker *)

Section Tracker.

Context {W : Type}.
Implicit Types (p : FluffyTagProcessor W) (w : W).




Lemma preserves_bind {A B} (I : FluffyTagProcessor W -> Prop) (m : M W A) (k : A -> M W B) :
  preserves I m -> (forall a, preserves I (k a)) -> preserves I (bind m k).
Proof.
  intros Hm Hk p w Hp. unfold bind.
  specialize (Hm p w Hp). destruct (m p w) as [[[a|e] p1] w1]; cbn in *.
  - by apply Hk.
  - exact Hm.
Qed.

Lemma preserves_ret {A} (I : FluffyTagProcessor W -> Prop) (a : A) : preserves I (ret a).
Proof. intros p w Hp. exact Hp. Qed.

Lemma preserves_raise {A} (I : FluffyTagProcessor W -> Prop) e : preserves I (@raise W A e).
Proof. intros p w Hp. exact Hp. Qed.

Lemma tracker_inv_view p p' :
  tracker_view p' = tracker_view p -> tracker_inv p -> tracker_inv p'.
Proof.
  unfold tracker_view, tracker_inv. intros Hv Hp.
  inversion Hv as [[Hd Hq Hc]]. rewrite Hd, Hq, Hc. exact Hp.
Qed.

Lemma stable_preserves {A} (m : M W A) :
  stable_on (@tracker_view W) m -> preserves (@tracker_inv W) m.
Proof. intros Hm p w Hp. eapply tracker_inv_view; [apply Hm | exact Hp]. Qed.

Lemma is_quote_cases c :
  is_quote c = true -> c = dquote_char \/ c = squote_char.
Proof.
  unfold is_quote, char_eqb. intros H.
  apply orb_true_iff in H as [H|H]; apply Ascii.eqb_eq in H; auto.
Qed.

Lemma track_quotes_inv c : preserves (@tracker_inv W) (track_quotes c).
Proof.
  intros p w Hinv. unfold track_quotes, bind, get, when, modify, ret.
  destruct (is_quote c && (0 <? json_depth p)) eqn:E; [|exact Hinv].
  apply andb_true_iff in E as [Hq Hd]. apply Z.ltb_lt in Hd.
  destruct (in_quotes p) eqn:Q;
    [destruct (String.eqb (str1 c) (quote_char p))|]; cbn.
  - unfold tracker_inv; cbn. discriminate.
  - exact Hinv.
  - unfold tracker_inv; cbn. intros _. split; [lia|].
    destruct (is_quote_cases c Hq) as [->| ->]; auto.
Qed.

Lemma track_depth_inv c : preserves (@tracker_inv W) (track_depth c).
Proof.
  intros p w Hinv. unfold track_depth, bind, get, when, modify, ret.
  destruct (in_quotes p) eqn:Q; cbn; [exact Hinv|].
  destruct (char_eqb c lbrace_char); cbn;
    [| destruct (char_eqb c rbrace_char); cbn];
    unfold tracker_inv; cbn; rewrite ?Q; discriminate.
Qed.

Lemma stable_tracker_dispatch c : stable_on (@tracker_view W) (dispatch_char c).
Proof. by apply stable_dispatch_char. Qed.

Lemma process_char_inv c : preserves (@tracker_inv W) (_process_char c).
Proof.
  unfold _process_char.
  apply preserves_bind; [apply track_quotes_inv | intros _].
  apply preserves_bind; [apply track_depth_inv | intros _].
  apply stable_preserves, stable_tracker_dispatch.
Qed.

Lemma process_chars_inv l : preserves (@tracker_inv W) (process_chars l).
Proof.
  induction l as [|c l IH]; cbn.
  - apply preserves_ret.
  - apply preserves_bind; [apply process_char_inv | intros _; exact IH].
Qed.

(** The decorator hands the processor on as the method left it. *)
Lemma decorator_processor {A} n (m : M W A) p w :
  snd (fst (error_handler_decorator n m p w)) = snd (fst (m p w)).
Proof.
  unfold error_handler_decorator.
  destruct (m p w) as [[[a|x] p1] w1]; cbn; [reflexivity|].
  destruct (error_handler p1) as [h|]; [|reflexivity].
  destruct (h _ w1) as [w2 [e|]]; reflexivity.
Qed.

Lemma preserves_decorator {A} (I : FluffyTagProcessor W -> Prop) n (m : M W A) :
  preserves I m -> preserves I (error_handler_decorator n m).
Proof. intros Hm p w Hp. rewrite decorator_processor. by apply Hm. Qed.

Lemma process_token_inv tok : preserves (@tracker_inv W) (process_token tok).
Proof.
  unfold process_token. apply preserves_decorator.
  destruct tok; try apply preserves_ret.
  destruct (str_is_empty s); [apply preserves_ret|].
  destruct (str_is_empty (strip s)); [apply preserves_ret|].
  apply process_chars_inv.
Qed.

Lemma process_token_each_inv toks :
  preserves (@tracker_inv W) (process_token_each toks).
Proof.
  induction toks as [|t toks IH]; cbn.
  - apply preserves_ret.
  - apply preserves_bind; [apply process_token_inv | intros _; exact IH].
Qed.

Lemma reachable_tracker_inv p : reachable p -> tracker_inv p.
Proof.
  induction 1 as [d eh a t| c p w _ IH | tok p w _ IH | toks p w _ IH
                 | s p w _ IH | p w _ IH | p w _ IH
                 | n h a b c d e f p w _ IH | h p w _ IH | t p w _ IH].
  - unfold tracker_inv, init; cbn. discriminate.
  - by apply process_char_inv.
  - by apply process_token_inv.
  - destruct toks; cbn; try exact IH; by apply process_token_each_inv.
  - destruct s; cbn; try exact IH.
    by apply (process_token_inv (PyStr s)).
  - unfold tracker_inv; cbn. discriminate.
  - revert IH. apply stable_preserves.
    unfold flush. stable_steps; by apply stable_flush_untagged.
  - revert IH. apply stable_preserves.
    unfold register_handler. stable_steps.
  - revert IH. apply stable_preserves.
    unfold set_untagged_content_handler. stable_steps.
  - revert IH. apply stable_preserves.
    unfold set_auto_process_threshold. stable_steps.
Qed.

Lemma bind_return {A B} (m : M W A) (k : A -> M W B) p w a p1 w1 :
  m p w = (Return a, p1, w1) -> bind m k p w = k a p1 w1.
Proof. intros H. unfold bind. by rewrite H. Qed.

Lemma bind_raise {A B} (m : M W A) (k : A -> M W B) p w e p1 w1 :
  m p w = (Raise e, p1, w1) -> bind m k p w = (Raise e, p1, w1).
Proof. intros H. unfold bind. by rewrite H. Qed.

Lemma track_quotes_skip c p w :
  is_quote c && (0 <? json_depth p) = false ->
  track_quotes c p w = (Return tt, p, w).
Proof. intros H. unfold track_quotes, bind, get. by rewrite H. Qed.

Lemma track_depth_skip c p w :
  char_eqb c lbrace_char = false -> char_eqb c rbrace_char = false ->
  track_depth c p w = (Return tt, p, w).
Proof.
  intros Hl Hr. unfold track_depth, bind, get. rewrite Hl, Hr.
  by destruct (in_quotes p).
Qed.

Lemma quote_outside_braces_is_inert q p w :
  is_quote q = true -> json_depth p = 0 ->
  tracker_view (snd (fst (_process_char q p w))) = tracker_view p.
Proof.
  intros Hq Hd.
  assert (Hl : char_eqb q lbrace_char = false)
    by (destruct (is_quote_cases q Hq) as [->| ->]; reflexivity).
  assert (Hr : char_eqb q rbrace_char = false)
    by (destruct (is_quote_cases q Hq) as [->| ->]; reflexivity).
  unfold _process_char.
  rewrite (bind_return _ _ p w tt p w)
    by (apply track_quotes_skip; rewrite Hd; apply andb_false_r).
  rewrite (bind_return _ _ p w tt p w) by (by apply track_depth_skip).
  apply stable_tracker_dispatch.
Qed.

Lemma lt_begins_tag_token p w :
  in_quotes p = false -> json_depth p = 0 ->
  _process_char lt_char p w = begin_tag_token p w.
Proof.
  intros Hq Hd. unfold _process_char.
  rewrite (bind_return _ _ p w tt p w) by (by apply track_quotes_skip).
  rewrite (bind_return _ _ p w tt p w) by (by apply track_depth_skip).
  unfold dispatch_char. unfold bind at 1. unfold get.
  rewrite Hq, Hd. reflexivity.
Qed.

(** C10. In every reachable processor, [in_quotes] implies [json_depth >= 1]
    and a recorded quote character.  Hence, at depth 0, a quote character
    leaves the tracker as it is (quoting is not toggled, the depth stays 0),
    and a [<] that follows is taken for the start of a tag. *)
Theorem quotes_only_inside_braces p :
  reachable p ->
  tracker_inv p
  /\ (json_depth p = 0 ->
      forall q w, is_quote q = true ->
        let p1 := snd (fst (_process_char q p w)) in
        in_quotes p1 = false /\ json_depth p1 = 0
        /\ forall w1, _process_char lt_char p1 w1 = begin_tag_token p1 w1).
Proof.
  intros Hreach. pose proof (reachable_tracker_inv p Hreach) as Hinv.
  split; [exact Hinv|].
  intros Hd q w Hq p1.
  pose proof (quote_outside_braces_is_inert q p w Hq Hd) as Hv.
  fold p1 in Hv. unfold tracker_view in Hv. inversion Hv as [[Hd1 Hq1 Hc1]].
  assert (Hnq : in_quotes p = false).
  { destruct (in_quotes p) eqn:Q; [|reflexivity].
    destruct (Hinv Q) as [Hge _]. lia. }
  split; [congruence|]. split; [congruence|].
  intros w1. apply lt_begins_tag_token; congruence.
Qed.

End Tracker.

(** ** Tag brackets inside brace-delimited content *)

Section Braces.

Context {W : Type}.
Implicit Types (p : FluffyTagProcessor W) (w : W).


Lemma view_bind {X A B} (g : FluffyTagProcessor W -> X)
    (m : M W A) (k : A -> M W B) p w x :
  g (snd (fst (m p w))) = x ->
  (forall a, stable_on g (k a)) ->
  g (snd (fst (bind m k p w))) = x.
Proof.
  intros Hm Hk. unfold bind.
  destruct (m p w) as [[[a|e] p1] w1]; cbn in *; [|exact Hm].
  by rewrite Hk.
Qed.

Lemma stable_lexer_untagged_flush p0 :
  stable_on (@lexer_view W)
    (when (auto_process_untagged p0
           && (auto_process_threshold p0 <? Z.of_nat (length (untagged_content p0))))
       (bind (_process_untagged_content (join (untagged_content p0)))
             (fun _ => modify (set_untagged_content [])))).
Proof.
  stable_steps.
Qed.

Lemma bracket_is_not_quote_or_brace c :
  c = lt_char \/ c = gt_char ->
  is_quote c = false /\ char_eqb c lbrace_char = false
  /\ char_eqb c rbrace_char = false.
Proof. intros [->| ->]; repeat split. Qed.

(** One character.  In the body of an open tag ([in_tag] false, a context on
    top of the stack), a [<] or [>] met while [json_depth > 0] does not start
    or end a tag token: [in_tag] stays false and the token buffer is
    untouched; the character is appended to the content of the top context,
    and the tracker is left as it was.  This holds whether or not a callback
    raises. *)
Lemma bracket_step_inside_braces p w c (top : TagContext W) :
  in_tag p = false ->
  last (tag_stack p) = Some top ->
  0 < json_depth p ->
  c = lt_char \/ c = gt_char ->
  let p' := snd (fst (_process_char c p w)) in
  tag_stack p' = (removelast (tag_stack p) ++ [append_content c top])%list
  /\ in_tag p' = false
  /\ current_tag p' = current_tag p
  /\ tracker_view p' = tracker_view p.
Proof.
  intros Hin Htop Hd Hc p'.
  destruct (bracket_is_not_quote_or_brace c Hc) as (Hq & Hl & Hr).
  assert (Hview : lexer_view p'
                  = ((removelast (tag_stack p) ++ [append_content c top])%list,
                     false, current_tag p, tracker_view p)).
  { subst p'. unfold _process_char.
    rewrite (bind_return _ _ p w tt p w)
      by (apply track_quotes_skip; by rewrite Hq).
    rewrite (bind_return _ _ p w tt p w) by (by apply track_depth_skip).
    unfold dispatch_char. unfold bind at 1. unfold get.
    replace (json_depth p =? 0) with false by (symmetry; apply Z.eqb_neq; lia).
    rewrite !andb_false_r, Hin, Htop.
    apply view_bind;
      [|intros _; apply stable_bind;
                    [intros ? ?; reflexivity
                    |intros ?; apply stable_lexer_untagged_flush]].
    apply view_bind.
    - cbn. unfold lexer_view, append_to_top; cbn. by rewrite Htop, Hin.
    - intros _. stable_steps. }
  repeat split.
  - exact (f_equal (fun v => fst (fst (fst v))) Hview).
  - exact (f_equal (fun v => snd (fst (fst v))) Hview).
  - exact (f_equal (fun v => snd (fst v)) Hview).
  - exact (f_equal snd Hview).
Qed.

(** *** A whole body *)

Lemma track_both {A} c (k : unit -> M W A) p w :
  bind (track_quotes c) (fun _ => bind (track_depth c) k) p w
  = k tt (with_tracker (tracker_step c (tracker_view p)) p) w.
Proof.
  destruct p as [tc ts pb uc it ct d q qc uh dbg eh apu apt].
  unfold track_quotes, track_depth, tracker_step, tracker_view, with_tracker,
    bind, get, when, modify, ret.
  cbn [json_depth in_quotes quote_char].
  destruct (is_quote c && (0 <? d)); destruct q;
    try destruct (String.eqb (str1 c) qc);
    destruct (char_eqb c lbrace_char); destruct (char_eqb c rbrace_char);
    reflexivity.
Qed.

Lemma tracker_view_with_tracker t p : tracker_view (with_tracker t p) = t.
Proof. by destruct t as [[d q] qc]. Qed.

(** One character of a body that is not taken for a tag start, with no
    streaming callback and no untagged flush due: it joins the content of
    the top context, and nothing else happens. *)
Lemma body_char c p w (top : TagContext W) cfg :
  in_tag p = false ->
  last (tag_stack p) = Some top ->
  config top = Some cfg ->
  streaming_callback cfg = None ->
  untagged_flush_due p = false ->
  marks_tag c (tracker_step c (tracker_view p)) = false ->
  _process_char c p w
  = (Return tt,
     set_tag_stack (removelast (tag_stack p) ++ [append_content c top])
       (with_tracker (tracker_step c (tracker_view p)) p), w).
Proof.
  intros Hin Htop Hcfg Hcb Hdue Hmark.
  unfold _process_char. rewrite track_both.
  set (t' := tracker_step c (tracker_view p)) in *.
  unfold dispatch_char. unfold bind at 1. unfold get.
  replace (char_eqb c lt_char && negb (in_quotes (with_tracker t' p))
           && (json_depth (with_tracker t' p) =? 0)) with false
    by (by destruct t' as [[d q] qc]).
  replace (in_tag (with_tracker t' p)) with false
    by (by destruct t' as [[d q] qc]).
  replace (last (tag_stack (with_tracker t' p))) with (Some top)
    by (by destruct t' as [[d q] qc]).
  rewrite Hcfg, Hcb.
  unfold bind, modify, ret, when.
  replace (auto_process_untagged _ && _) with false
    by (by destruct t' as [[d q] qc]).
  unfold append_to_top.
  replace (tag_stack (with_tracker t' p)) with (tag_stack p)
    by (by destruct t' as [[d q] qc]).
  by rewrite Htop.
Qed.

Lemma append_content_all c l (top : TagContext W) :
  append_all l (append_content c top) = append_all (c :: l) top.
Proof. unfold append_all, append_content; cbn. by rewrite <- app_assoc. Qed.

Lemma append_all_nil (top : TagContext W) : append_all [] top = top.
Proof. destruct top. unfold append_all; cbn. by rewrite app_nil_r. Qed.

(** A shielded text fed in the body of an open tag without streaming callback
    runs no callback and raises nothing; it is appended, character for
    character, to the content of the top context. *)
Lemma shielded_body_is_content l : forall p w (top : TagContext W) cfg,
  in_tag p = false ->
  last (tag_stack p) = Some top ->
  config top = Some cfg ->
  streaming_callback cfg = None ->
  untagged_flush_due p = false ->
  shielded (tracker_view p) l = true ->
  exists p',
    process_chars l p w = (Return tt, p', w)
    /\ tag_stack p' = (removelast (tag_stack p) ++ [append_all l top])%list
    /\ in_tag p' = false
    /\ untagged_flush_due p' = false
    /\ tracker_view p' = tracker_run (tracker_view p) l.
Proof.
  induction l as [|c l IH]; intros p w top cfg Hin Htop Hcfg Hcb Hdue Hsh.
  - exists p. repeat split; try assumption.
    rewrite append_all_nil.
    destruct (tag_stack p) as [|x xs] using rev_ind; [discriminate|].
    rewrite last_snoc in Htop. inversion Htop; subst.
    by rewrite removelast_last.
  - cbn [shielded] in Hsh. apply andb_true_iff in Hsh as [Hmark Hsh].
    apply negb_true_iff in Hmark.
    pose proof (body_char c p w top cfg Hin Htop Hcfg Hcb Hdue Hmark) as Hc.
    set (t' := tracker_step c (tracker_view p)) in *.
    set (p1 := set_tag_stack (removelast (tag_stack p) ++ [append_content c top])
                 (with_tracker t' p)) in *.
    assert (Hv1 : tracker_view p1 = t') by (by destruct t' as [[d q] qc]).
    destruct (IH p1 w (append_content c top) cfg) as (p' & Hrun & Hst & Hin' & Hdue' & Hv').
    + by destruct t' as [[d q] qc].
    + subst p1. destruct t' as [[d q] qc]. cbn. apply last_snoc.
    + exact Hcfg.
    + exact Hcb.
    + subst p1. by destruct t' as [[d q] qc].
    + by rewrite Hv1.
    + exists p'. cbn [process_chars].
      rewrite (bind_return _ _ p w tt p1 w Hc).
      repeat split; try assumption.
      * rewrite Hst, append_content_all. f_equal.
        subst p1. destruct t' as [[d q] qc]. cbn. apply removelast_last.
      * rewrite Hv', Hv1. reflexivity.
Qed.

(** The matching close pops the top context and hands its content, joined,
    to the handler and then to the complete callback. *)
Lemma matching_close_delivers_content p w (top : TagContext W) cfg w1 w2 :
  last (tag_stack p) = Some top ->
  config top = Some cfg ->
  handler cfg (attributes top) (join (content top)) w = (w1, None) ->
  call_if_configured (on_tag_complete_callback cfg)
    (fun cb => cb (name top) (attributes top) (join (content top))) w1
  = (w2, None) ->
  _handle_closing_tag (name top) p w
  = (Return tt, set_tag_stack (removelast (tag_stack p)) p, w2).
Proof.
  intros Htop Hcfg Hh Hc.
  unfold _handle_closing_tag. unfold bind at 1. unfold get.
  rewrite Htop, String.eqb_refl, Hcfg.
  unfold bind, modify, _debug_log, ret, try_call. rewrite Hh.
  unfold call_if_configured in Hc.
  destruct (on_tag_complete_callback cfg) as [cb|].
  - by rewrite Hc.
  - by inversion Hc.
Qed.

End Braces.

(** ** The token loop and the error boundary *)

Section Tokens.

Context {W : Type}.
Implicit Types (p : FluffyTagProcessor W) (w : W).

Lemma process_chars_app l1 l2 p w :
  process_chars (l1 ++ l2) p w
  = bind (process_chars l1) (fun _ => process_chars l2) p w.
Proof.
  revert p w. induction l1 as [|c l1 IH]; intros p w; [reflexivity|].
  cbn [app process_chars]. unfold bind.
  destruct (_process_char c p w) as [[[[]|e] p1] w1]; [|reflexivity].
  rewrite IH. reflexivity.
Qed.

(** The loop either runs through, or stops at the first character that
    raises, in the state that character left. *)
Lemma process_chars_outcome l p w :
  (exists p' w', process_chars l p w = (Return tt, p', w'))
  \/ (exists pre c post p1 w1 x p' w',
        l = (pre ++ c :: post)%list
        /\ process_chars pre p w = (Return tt, p1, w1)
        /\ _process_char c p1 w1 = (Raise x, p', w')
        /\ process_chars l p w = (Raise x, p', w')).
Proof.
  revert p w. induction l as [|c l IH]; intros p w.
  - left. by exists p, w.
  - cbn [process_chars]. unfold bind.
    destruct (_process_char c p w) as [[[[]|e] p1] w1] eqn:Hc.
    + destruct (IH p1 w1) as [(p' & w' & H)|
                              (pre & c' & post & p2 & w2 & x & p' & w' & -> & Hpre & Hc' & H)].
      * left. by exists p', w'.
      * right. exists (c :: pre), c', post, p2, w2, x, p', w'.
        repeat split; try assumption.
        cbn [process_chars]. unfold bind. by rewrite Hc.
    + right. exists [], c, l, p, w, e, p1, w1. by repeat split.
Qed.

Lemma stable_error_handler_chars l :
  stable_on (@error_handler W) (process_chars l).
Proof. by apply stable_process_chars. Qed.

Lemma blank_empty s : blank s = false -> str_is_empty s = false.
Proof. by destruct s. Qed.

Lemma process_token_nonblank s p w :
  blank s = false ->
  process_token (PyStr s) p w
  = error_handler_decorator "process_token" (process_chars (chars s)) p w.
Proof.
  intros Hb. unfold process_token. rewrite (blank_empty s Hb).
  unfold blank in Hb. by rewrite Hb.
Qed.

(** C6, as the code has it.  Without an error handler, [process_token] never
    lets an error out: either every character of the token is processed, or
    the call ends, returning normally, at the first character that raises.
    The processor and the world are then as that character left them, and
    the characters of the token behind it are not processed. *)
Theorem error_ends_token_quietly s p w :
  error_handler p = None ->
  blank s = false ->
  (exists p' w',
      process_chars (chars s) p w = (Return tt, p', w')
      /\ process_token (PyStr s) p w = (Return (Some tt), p', w'))
  \/ (exists pre c post p1 w1 x p' w',
        chars s = (pre ++ c :: post)%list
        /\ process_chars pre p w = (Return tt, p1, w1)
        /\ _process_char c p1 w1 = (Raise x, p', w')
        /\ process_token (PyStr s) p w = (Return None, p', w')).
Proof.
  intros Heh Hb. rewrite (process_token_nonblank s p w Hb).
  unfold error_handler_decorator.
  destruct (process_chars_outcome (chars s) p w)
    as [(p' & w' & H)|(pre & c & post & p1 & w1 & x & p' & w' & Hs & Hpre & Hc & H)].
  - left. exists p', w'. by rewrite H.
  - right. exists pre, c, post, p1, w1, x, p', w'.
    repeat split; try assumption.
    pose proof (stable_error_handler_chars (chars s) p w) as Hst.
    rewrite H in *. cbn in Hst. by rewrite Hst, Heh.
Qed.

(** At the level of the scanner, the [>] that completes a closing tag token
    on an empty stack raises the same error; the character has joined the
    token buffer before, and [in_tag] is still up afterwards. *)
Lemma closing_token_on_empty_stack p w :
  in_tag p = true ->
  tag_stack p = [] ->
  let token := strip (join (current_tag p ++ [gt_char])) in
  startswith token "</" = true ->
  _process_char gt_char p w
  = (Raise (ExTagProcessorError (NoOpeningTags (strip (slice 2 1 token)))),
     set_current_tag (current_tag p ++ [gt_char]) p, w).
Proof.
  intros Hin Hempty token Hstart. unfold _process_char.
  rewrite (bind_return _ _ p w tt p w) by (by apply track_quotes_skip).
  rewrite (bind_return _ _ p w tt p w) by (by apply track_depth_skip).
  unfold dispatch_char. unfold bind at 1. unfold get.
  change (char_eqb gt_char lt_char) with false. cbn [andb]. rewrite Hin.
  apply bind_raise.
  set (p1 := set_current_tag (current_tag p ++ [gt_char]) p).
  rewrite (bind_return _ _ p w tt p1 w eq_refl).
  change (char_eqb gt_char gt_char) with true. cbn [when].
  rewrite (bind_return get _ p1 w p1 p1 w eq_refl).
  apply bind_raise. unfold _process_complete_tag.
  change (current_tag p1) with (current_tag p ++ [gt_char])%list.
  fold token. rewrite Hstart.
  unfold _handle_closing_tag.
  rewrite (bind_return get _ p1 w p1 p1 w eq_refl).
  change (tag_stack p1) with (tag_stack p). rewrite Hempty. reflexivity.
Qed.

(** *** White space *)

Lemma lstrip_chars_nil l :
  lstrip_chars l = [] <-> forallb is_space l = true.
Proof.
  induction l as [|c l IH]; cbn; [done|].
  destruct (is_space c); cbn; [exact IH | split; discriminate].
Qed.

Lemma forallb_rev {A} (f : A -> bool) l :
  forallb f (rev l) = forallb f l.
Proof.
  induction l as [|a l IH]; cbn; [done|].
  rewrite forallb_app, IH. cbn. rewrite andb_true_r. apply andb_comm.
Qed.

Lemma forallb_lstrip l :
  forallb is_space (lstrip_chars l) = forallb is_space l.
Proof.
  induction l as [|c l IH]; cbn; [done|].
  destruct (is_space c) eqn:E; cbn; [exact IH | by rewrite E].
Qed.

Lemma join_empty l : str_is_empty (join l) = true <-> l = [].
Proof. destruct l; cbn; split; (done || discriminate). Qed.

Lemma blank_spec s : blank s = true <-> forallb is_space (chars s) = true.
Proof.
  unfold blank, strip, rstrip_chars. rewrite join_empty.
  split.
  - intros H. apply (f_equal (@rev ascii)) in H. rewrite rev_involutive in H.
    cbn in H. apply lstrip_chars_nil in H.
    by rewrite forallb_rev, forallb_lstrip in H.
  - intros H.
    assert (H' : lstrip_chars (rev (lstrip_chars (chars s))) = []).
    { apply lstrip_chars_nil. by rewrite forallb_rev, forallb_lstrip. }
    by rewrite H'.
Qed.

Lemma chars_app s1 s2 :
  chars (String.append s1 s2) = (chars s1 ++ chars s2)%list.
Proof.
  unfold chars. induction s1 as [|c s1 IH]; [done|].
  change (c :: list_ascii_of_string (String.append s1 s2)
          = c :: (list_ascii_of_string s1 ++ list_ascii_of_string s2)%list).
  by f_equal.
Qed.

(** *** Chunks *)

Lemma process_token_each_chunks chunks p w p' w' :
  Forall (fun c => blank c = false) chunks ->
  process_chars (chars (concat_str chunks)) p w = (Return tt, p', w') ->
  process_token_each (map PyStr chunks) p w = (Return tt, p', w').
Proof.
  intros Hnb. revert p w.
  induction Hnb as [|c cs Hc _ IH]; intros p w Hrun; [exact Hrun|].
  cbn [concat_str fold_right] in Hrun. fold (concat_str cs) in Hrun.
  rewrite chars_app, process_chars_app in Hrun.
  unfold bind in Hrun.
  destruct (process_chars (chars c) p w) as [[[[]|e] p1] w1] eqn:Hhead;
    [|discriminate].
  cbn [map process_token_each].
  rewrite (bind_return _ _ p w (Some tt) p1 w1).
  - by apply IH.
  - rewrite (process_token_nonblank c p w Hc).
    unfold error_handler_decorator. by rewrite Hhead.
Qed.

(** C1, as the code has it.  If feeding a string as one token raises no
    error, then feeding it as any sequence of chunks none of which is empty
    or made of white space only leaves the same processor and the same world:
    the same callbacks have run on the same arguments in the same order. *)
Theorem feed_order_invariance chunks p w p' w' :
  Forall (fun c => blank c = false) chunks ->
  process_token (PyStr (concat_str chunks)) p w = (Return (Some tt), p', w') ->
  process_tokens (PyList (map PyStr chunks)) p w = (Return tt, p', w').
Proof.
  intros Hnb Hwhole. cbn [process_tokens].
  destruct chunks as [|c cs].
  - unfold process_token, error_handler_decorator in Hwhole. cbn in Hwhole.
    inversion Hwhole; subst. reflexivity.
  - apply process_token_each_chunks; [exact Hnb|].
    assert (Hb : blank (concat_str (c :: cs)) = false).
    { apply Forall_cons in Hnb as [Hc _].
      destruct (blank (concat_str (c :: cs))) eqn:E; [|reflexivity].
      apply blank_spec in E. cbn [concat_str fold_right] in E.
      rewrite chars_app, forallb_app in E.
      apply andb_true_iff in E as [E _]. apply blank_spec in E. congruence. }
    rewrite (process_token_nonblank _ p w Hb) in Hwhole.
    unfold error_handler_decorator in Hwhole.
    destruct (process_chars (chars (concat_str (c :: cs))) p w)
      as [[[[]|x] p1] w1]; [congruence|].
    destruct (error_handler p1) as [h|]; [|discriminate].
    destruct (h _ w1) as [w2 [e|]]; discriminate.
Qed.

(** C8, as the code has it.  [process_token] does nothing, and reports
    nothing, on an empty or white-space-only string and on anything that is
    not a string; it is [process_string] that raises on a non-string. *)
Theorem process_token_ignores_blank_and_non_strings tok p w :
  ((forall s, tok = PyStr s -> blank s = true) ->
   process_token tok p w = (Return (Some tt), p, w))
  /\ ((forall s, tok <> PyStr s) ->
      process_string tok p w
      = (Raise (ExTagProcessorError (ContentMustBeString (type_name tok))), p, w)).
Proof.
  split.
  - intros Hb. destruct tok as [s| | | |]; try reflexivity.
    specialize (Hb s eq_refl). unfold process_token.
    destruct (str_is_empty s); [reflexivity|].
    unfold blank in Hb. by rewrite Hb.
  - intros Hns. destruct tok as [s| | | |]; try reflexivity.
    by destruct (Hns s).
Qed.

End Tokens.

(** ** Worked inputs *)

Section Worked.

Import Trace.

Example strip_ex : strip "  a b  " = "a b".
Proof. reflexivity. Qed.

Example split_ex : split_maxsplit1 "  1  2  3  " = ["1"; "2  3  "].
Proof. reflexivity. Qed.

Example findall_ex :
  findall_attributes 0 (chars "ab=1 cd='x' e = 'y z' a-b='q'")
  = [("cd", "x"); ("e", "y z"); ("b", "q")].
Proof. reflexivity. Qed.

(** Nested tags: the inner handler runs first; the outer content holds the
    text around the inner tag, not its markup. *)
Example nested_tags :
  events (run (process_token (PyStr "<a x='1'>hi <b>yo</b> there</a>")) with_a_b)
  = [Handler "b" ∅ "yo"; Handler "a" {["x" := "1"]} "hi  there"].
Proof. vm_compute. reflexivity. Qed.

(** The JSON example of the specification is delivered verbatim. *)
Example json_body_verbatim :
  events (run (process_token
                 (PyStr (String.append "<a>" (String.append json_body "</a>"))))
              with_a_b)
  = [Handler "a" ∅ json_body].
Proof. vm_compute. reflexivity. Qed.

(** [<a></b>]: the mismatch reaches the error handler and [a] stays open. *)
Example mismatch_reported :
  let r := run (process_token (PyStr "<a></b>")) reporting_a_b in
  events r = [Reported (MismatchedClosingTag "a" "b")]
  /\ names (final r) = ["a"].
Proof. vm_compute. split; reflexivity. Qed.

(** [</x>] on an empty stack reaches the error handler. *)
Example unexpected_closing_reported :
  let r := run (process_token (PyStr "</x>")) reporting_a_b in
  events r = [Reported (NoOpeningTags "x")] /\ names (final r) = [].
Proof. vm_compute. split; reflexivity. Qed.

(** [<a><a>]: the second open is refused and only one [a] is on the stack. *)
Example nesting_reported :
  let r := run (process_token (PyStr "<a><a>")) reporting_a_b in
  events r = [Reported (NestedWithinItself "a" ∅)] /\ names (final r) = ["a"].
Proof. vm_compute. split; reflexivity. Qed.

(** A self-closing tag and an immediately closed one run the same callbacks
    on the same arguments. *)
Example self_closing_like_empty_body :
  events (run (process_token (PyStr "<a x='1'/>")) with_full_a)
  = [TagStart "a" {["x" := "1"]}; Handler "a" {["x" := "1"]} "";
     TagComplete "a" {["x" := "1"]} ""]
  /\ events (run (process_token (PyStr "<a x='1'></a>")) with_full_a)
     = events (run (process_token (PyStr "<a x='1'/>")) with_full_a).
Proof. vm_compute. split; reflexivity. Qed.

(** An empty tag token makes [parts[0]] fail; the decorator wraps it. *)
Example empty_tag_token :
  events (run (process_token (PyStr "<>")) reporting_a_b)
  = [Reported (UnexpectedError "process_token" "list index out of range")].
Proof. vm_compute. reflexivity. Qed.

End Worked.

(** ** The theorems at concrete inputs *)

Section Instances.

Import Trace.

Lemma mismatched_closing_tag_witness :
  _handle_closing_tag "b" open_a []
  = (Raise (ExTagProcessorError (MismatchedClosingTag "a" "b")), open_a, []).
Proof.
  apply (mismatched_closing_tag open_a [] "b" (context_a [])).
  - vm_compute. reflexivity.
  - discriminate.
Defined.

Lemma nested_same_type_rejected_witness :
  _handle_opening_tag "a" ∅ open_a []
  = (Raise (ExTagProcessorError (NestedWithinItself "a" ∅)), open_a, []).
Proof.
  apply (nested_same_type_rejected open_a [] "a" ∅ (plain_config "a") (context_a [])).
  - vm_compute. reflexivity.
  - reflexivity.
  - vm_compute. apply list_elem_of_here.
  - reflexivity.
Defined.

(** After an opening brace and a quote the flag is up, at depth 1. *)
Lemma quotes_only_inside_braces_witness :
  let p := after (process_token (PyStr "{'")) fresh in
  in_quotes p = true /\ tracker_inv p.
Proof.
  split; [reflexivity|].
  apply (quotes_only_inside_braces (after (process_token (PyStr "{'")) fresh)).
  apply (reach_token (PyStr "{'") fresh []). apply reach_init.
Defined.

(** After [<a>] and an opening brace, a [<] joins the content of [a]. *)
Example bracket_after_brace :
  let p' := snd (fst (_process_char lt_char open_a_brace [])) in
  tag_stack p' = [context_a [lbrace_char; lt_char]] /\ in_tag p' = false.
Proof.
  destruct (bracket_step_inside_braces open_a_brace [] lt_char
              (context_a [lbrace_char]))
    as (Hstack & Hin & _).
  - reflexivity.
  - vm_compute. reflexivity.
  - vm_compute. reflexivity.
  - left. reflexivity.
  - split; [exact Hstack | exact Hin].
Qed.

Lemma error_ends_token_quietly_witness :
  (exists p' w',
      process_chars (chars "</x><a>hi</a>") with_a_b [] = (Return tt, p', w')
      /\ process_token (PyStr "</x><a>hi</a>") with_a_b []
         = (Return (Some tt), p', w'))
  \/ (exists pre c post p1 w1 x p' w',
        chars "</x><a>hi</a>" = (pre ++ c :: post)%list
        /\ process_chars pre with_a_b [] = (Return tt, p1, w1)
        /\ _process_char c p1 w1 = (Raise x, p', w')
        /\ process_token (PyStr "</x><a>hi</a>") with_a_b []
           = (Return None, p', w')).
Proof.
  apply (error_ends_token_quietly "</x><a>hi</a>" with_a_b []); reflexivity.
Defined.

Lemma feed_order_invariance_witness :
  process_tokens (PyList [PyStr "<a>x"; PyStr " y"; PyStr "</a>"]) with_a_b []
  = (Return tt, with_a_b, [Handler "a" ∅ "x y"]).
Proof.
  apply (feed_order_invariance ["<a>x"; " y"; "</a>"] with_a_b []).
  - repeat constructor.
  - vm_compute. reflexivity.
Defined.

Lemma process_token_ignores_blank_and_non_strings_witness :
  process_token (PyStr "  ") open_a [] = (Return (Some tt), open_a, [])
  /\ process_string (PyInt 5) open_a []
     = (Raise (ExTagProcessorError (ContentMustBeString "int")), open_a, []).
Proof.
  split.
  - apply (process_token_ignores_blank_and_non_strings (PyStr "  ") open_a []).
    intros s H. inversion H. reflexivity.
  - apply (process_token_ignores_blank_and_non_strings (PyInt 5) open_a []).
    discriminate.
Defined.

(** *** Where the claims as stated fail *)

(** Against C1: a chunk made of one space is dropped, so the handler gets
    [xy] from the chunks and [x y] from the whole string. *)
Lemma whitespace_chunk_is_dropped :
  let chunks := ["<a>x"; " "; "y</a>"] in
  events (run (process_tokens (PyList (map PyStr chunks))) with_a_b)
  = [Handler "a" ∅ "xy"]
  /\ events (run (process_token (PyStr (concat_str chunks))) with_a_b)
     = [Handler "a" ∅ "x y"]
  /\ events (run (process_tokens (PyList (map PyStr chunks))) with_a_b)
     <> events (run (process_token (PyStr (concat_str chunks))) with_a_b).
Proof.
  assert (H1 : events (run (process_tokens
                              (PyList (map PyStr ["<a>x"; " "; "y</a>"]))) with_a_b)
               = [Handler "a" ∅ "xy"]) by (vm_compute; reflexivity).
  assert (H2 : events (run (process_token
                              (PyStr (concat_str ["<a>x"; " "; "y</a>"]))) with_a_b)
               = [Handler "a" ∅ "x y"]) by (vm_compute; reflexivity).
  cbv zeta. rewrite H1, H2. repeat split. discriminate.
Qed.

(** Against C6: with no error handler, the error at the end of [</x>] ends
    the call; the [<a>hi</a>] behind it in the same token is not processed
    (no handler runs, the scanner still holds the token [</x>]), whereas fed
    as a token of its own it is. *)
Lemma error_drops_rest_of_token :
  let r := run (process_token (PyStr "</x><a>hi</a>")) with_a_b in
  error_handler with_a_b = None
  /\ outcome r = Return None
  /\ events r = []
  /\ in_tag (final r) = true
  /\ join (current_tag (final r)) = "</x>"
  /\ events (run (process_tokens (PyList [PyStr "</x>"; PyStr "<a>hi</a>"])) with_a_b)
     = [Handler "a" ∅ "hi"].
Proof. vm_compute. repeat split. Qed.

(** Against C8: a non-string given to [process_token] is no error; even a
    configured error handler hears nothing. *)
Lemma process_token_accepts_non_string :
  run (process_token (PyInt 5)) reporting_a_b
  = (Return (Some tt), reporting_a_b, [])
  /\ run (process_token PyNone) reporting_a_b
     = (Return (Some tt), reporting_a_b, []).
Proof. split; reflexivity. Qed.

End Instances.

(** ** Further properties of the methods *)

Section PublicFrames.

Context {W X : Type} (f : FluffyTagProcessor W -> X).

Hypothesis f_stack : forall v p, f (set_tag_stack v p) = f p.
Hypothesis f_untagged : forall v p, f (set_untagged_content v p) = f p.
Hypothesis f_in_tag : forall v p, f (set_in_tag v p) = f p.
Hypothesis f_current : forall v p, f (set_current_tag v p) = f p.
Hypothesis f_depth : forall v p, f (set_json_depth v p) = f p.
Hypothesis f_in_quotes : forall v p, f (set_in_quotes v p) = f p.
Hypothesis f_quote_char : forall v p, f (set_quote_char v p) = f p.

Lemma stable_decorator {A} n (m : M W A) :
  stable_on f m -> stable_on f (error_handler_decorator n m).
Proof. intros Hm p w. rewrite decorator_processor. apply Hm. Qed.

Lemma stable_process_token tok : stable_on f (process_token tok).
Proof.
  unfold process_token. apply stable_decorator.
  destruct tok; try apply stable_ret.
  destruct (str_is_empty s); [apply stable_ret|].
  destruct (str_is_empty (strip s)); [apply stable_ret|].
  by apply stable_process_chars.
Qed.

Lemma stable_process_token_each toks : stable_on f (process_token_each toks).
Proof.
  induction toks as [|t toks IH]; cbn.
  - apply stable_ret.
  - apply stable_bind; [apply stable_process_token | intros _; exact IH].
Qed.

Lemma stable_process_tokens toks : stable_on f (process_tokens toks).
Proof.
  destruct toks; cbn; try apply stable_raise; apply stable_process_token_each.
Qed.

Lemma stable_process_string s : stable_on f (process_string s).
Proof.
  destruct s; cbn; try apply stable_raise. apply (stable_process_token (PyStr s)).
Qed.

Lemma stable_flush : stable_on f flush.
Proof.
  unfold flush. apply stable_bind; [by apply stable_flush_untagged|].
  intros _. stable_steps.
Qed.

End PublicFrames.

Section Settings.

Context {W : Type}.
Implicit Types (p : FluffyTagProcessor W) (w : W).

(** Feeding input and flushing never touch what registration and
    configuration set: the registry, the untagged-content handler, the error
    handler, the debug flag and the auto-process settings are the same after
    [process_token], [process_tokens], [process_string] and [flush], whatever
    the input and whether or not an error is raised. *)
Theorem scanning_keeps_settings p w (x : pyobj) :
  settings_view (snd (fst (process_token x p w))) = settings_view p
  /\ settings_view (snd (fst (process_tokens x p w))) = settings_view p
  /\ settings_view (snd (fst (process_string x p w))) = settings_view p
  /\ settings_view (snd (fst (flush p w))) = settings_view p.
Proof.
  repeat split.
  - by apply (stable_process_token (@settings_view W)).
  - by apply (stable_process_tokens (@settings_view W)).
  - by apply (stable_process_string (@settings_view W)).
  - by apply (stable_flush (@settings_view W)).
Qed.

(** [register_handler] refuses the empty name and changes nothing then; for
    any other name it stores the configuration built from its arguments
    under that name, overwriting an earlier one, leaves every other name's
    registration alone, and does not touch the scanning state. *)
Theorem register_then_lookup p w n h a b c d e g :
  (n = "" ->
   register_handler n h a b c d e g p w
   = (Raise (ExTagProcessorError (InvalidTagName n)), p, w))
  /\ (n <> "" ->
      exists p',
        register_handler n h a b c d e g p w = (Return tt, p', w)
        /\ tag_configs p' !! n = Some (mkTagConfig h c a d b e g)
        /\ (forall n', n' <> n -> tag_configs p' !! n' = tag_configs p !! n')
        /\ scanning_view p' = scanning_view p).
Proof.
  split.
  - intros ->. reflexivity.
  - intros Hn. unfold register_handler.
    destruct n as [|ch n]; [done|]. cbn [str_is_empty].
    eexists. split; [reflexivity|]. cbn. repeat split.
    + apply lookup_insert_eq.
    + intros n' Hn'. by apply lookup_insert_ne.
Qed.

(** [set_auto_process_threshold] raises on a threshold below 1 and changes
    nothing then; otherwise it sets the threshold and nothing else. *)
Theorem threshold_must_be_positive p w t :
  (t < 1 ->
   set_auto_process_threshold t p w
   = (Raise (ExTagProcessorError (InvalidThreshold t)), p, w))
  /\ (1 <= t ->
      exists p',
        set_auto_process_threshold t p w = (Return tt, p', w)
        /\ auto_process_threshold p' = t
        /\ scanning_view p' = scanning_view p
        /\ tag_configs p' = tag_configs p
        /\ untagged_content_handler p' = untagged_content_handler p
        /\ error_handler p' = error_handler p
        /\ auto_process_untagged p' = auto_process_untagged p).
Proof.
  unfold set_auto_process_threshold. split; intros Ht.
  - apply Z.ltb_lt in Ht. by rewrite Ht.
  - apply Z.ltb_ge in Ht. rewrite Ht. eexists. split; [reflexivity|].
    cbn. repeat split.
Qed.

End Settings.

Section StackMachineMore.

Context {W : Type}.
Implicit Types (p : FluffyTagProcessor W) (w : W).

Lemma opening_tag_run p w n a cfg w1 :
  tag_configs p !! n = Some cfg ->
  allows_nested_of_same_type cfg = true \/ is_inside_tag n p = false ->
  call_if_configured (on_tag_start_callback cfg) (fun cb => cb n a) w = (w1, None) ->
  _handle_opening_tag n a p w
  = (Return tt,
     set_tag_stack (tag_stack p ++ [new_context n a cfg (tag_stack p)]) p, w1).
Proof.
  intros Hcfg Hnest Hstart.
  unfold _handle_opening_tag. unfold bind at 1. unfold get. rewrite Hcfg.
  assert (Hwhen :
    when (negb (allows_nested_of_same_type cfg))
      (when (existsb (fun context : TagContext W => String.eqb (name context) n)
                     (tag_stack p))
         (raise (ExTagProcessorError (NestedWithinItself n a)))) p w
    = (Return tt, p, w)).
  { destruct Hnest as [->|Hin]; [reflexivity|].
    unfold is_inside_tag in Hin. rewrite Hin.
    by destruct (allows_nested_of_same_type cfg). }
  rewrite (bind_return _ _ p w tt p w Hwhen).
  unfold call_if_configured in Hstart.
  destruct (on_tag_start_callback cfg) as [cb|].
  - unfold bind, try_call. rewrite Hstart. reflexivity.
  - inversion Hstart; subst. reflexivity.
Qed.

(** Opening a registered tag whose nesting is allowed (the tag admits
    nesting in itself, or no context of that name is open) and whose start
    callback, if any, returns: the callback runs first, then one context is
    pushed on top, with the tag's name and attributes, empty content and the
    configuration registered at that moment.  The depth grows by one and the
    tag counts as open. *)
Theorem opening_pushes_context p w n a cfg w1 :
  tag_configs p !! n = Some cfg ->
  allows_nested_of_same_type cfg = true \/ is_inside_tag n p = false ->
  call_if_configured (on_tag_start_callback cfg) (fun cb => cb n a) w = (w1, None) ->
  let p' := set_tag_stack (tag_stack p ++ [new_context n a cfg (tag_stack p)]) p in
  _handle_opening_tag n a p w = (Return tt, p', w1)
  /\ get_stack_depth p' = get_stack_depth p + 1
  /\ is_inside_tag n p' = true.
Proof.
  intros Hcfg Hnest Hstart p'. repeat split.
  - by apply opening_tag_run.
  - unfold get_stack_depth, p'; cbn. rewrite length_app; cbn. lia.
  - unfold is_inside_tag, p'; cbn. rewrite existsb_app; cbn.
    rewrite String.eqb_refl. apply orb_true_iff. right. reflexivity.
Qed.

(** If the start callback raises, the tag is not opened: the error names the
    tag and its attributes and the processor is as before. *)
Theorem start_callback_failure_blocks_push p w n a cfg cb w1 e :
  tag_configs p !! n = Some cfg ->
  allows_nested_of_same_type cfg = true \/ is_inside_tag n p = false ->
  on_tag_start_callback cfg = Some cb ->
  cb n a w = (w1, Some e) ->
  _handle_opening_tag n a p w
  = (Raise (ExTagProcessorError (TagStartCallbackError e n a)), p, w1).
Proof.
  intros Hcfg Hnest Hcb Hraise.
  unfold _handle_opening_tag. unfold bind at 1. unfold get. rewrite Hcfg.
  assert (Hwhen :
    when (negb (allows_nested_of_same_type cfg))
      (when (existsb (fun context : TagContext W => String.eqb (name context) n)
                     (tag_stack p))
         (raise (ExTagProcessorError (NestedWithinItself n a)))) p w
    = (Return tt, p, w)).
  { destruct Hnest as [->|Hin]; [reflexivity|].
    unfold is_inside_tag in Hin. rewrite Hin.
    by destruct (allows_nested_of_same_type cfg). }
  rewrite (bind_return _ _ p w tt p w Hwhen).
  rewrite Hcb. unfold bind, try_call. rewrite Hraise. reflexivity.
Qed.

(** A tag that is not registered is dropped without a trace, as an opening
    tag and as a self-closing one: no error, no callback, nothing pushed. *)
Theorem unregistered_tag_is_ignored p w n a :
  tag_configs p !! n = None ->
  _handle_opening_tag n a p w = (Return tt, p, w)
  /\ _handle_self_closing_tag n a p w = (Return tt, p, w).
Proof.
  intros Hcfg. unfold _handle_opening_tag, _handle_self_closing_tag, bind, get.
  rewrite Hcfg. split; reflexivity.
Qed.

(** The matching close pops before it calls: when the handler raises, the
    context is gone from the stack all the same, the complete callback is
    not run, and the error names the tag and its attributes. *)
Theorem handler_failure_after_pop p w (top : TagContext W) cfg w1 e :
  last (tag_stack p) = Some top ->
  config top = Some cfg ->
  handler cfg (attributes top) (join (content top)) w = (w1, Some e) ->
  _handle_closing_tag (name top) p w
  = (Raise (ExTagProcessorError (TagHandlerError e (name top) (attributes top))),
     set_tag_stack (removelast (tag_stack p)) p, w1).
Proof.
  intros Htop Hcfg Hh.
  unfold _handle_closing_tag. unfold bind at 1. unfold get.
  rewrite Htop, String.eqb_refl, Hcfg.
  unfold bind, modify, _debug_log, ret, try_call. by rewrite Hh.
Qed.

(** Closing never consults the registry: it runs the configuration the
    context took at open time.  Registering, or re-registering, between open
    and close changes nothing of what the close does. *)
Theorem closing_ignores_registry p w n tc :
  _handle_closing_tag n (set_tag_configs tc p) w
  = (let '(r, p', w') := _handle_closing_tag n p w in
     (r, set_tag_configs tc p', w')).
Proof.
  unfold _handle_closing_tag, bind, get, modify, _debug_log, ret, try_call, raise.
  change (tag_stack (set_tag_configs tc p)) with (tag_stack p).
  destruct (last (tag_stack p)) as [top|]; [|reflexivity].
  destruct (String.eqb (name top) n); [|reflexivity].
  destruct (config top) as [cfg|]; [|reflexivity].
  destruct (handler cfg (attributes top) (join (content top)) w) as [w1 [e|]];
    [reflexivity|].
  destruct (on_tag_complete_callback cfg) as [cb|]; [|reflexivity].
  destruct (cb n (attributes top) (join (content top)) w1) as [w2 [e|]];
    reflexivity.
Qed.

End StackMachineMore.

Section TrackerMore.

Context {W : Type}.
Implicit Types (p : FluffyTagProcessor W) (w : W).

Lemma bind_return_inv {A B} (m : M W A) (k : A -> M W B) p w b p' w' :
  bind m k p w = (Return b, p', w') ->
  exists a p1 w1, m p w = (Return a, p1, w1) /\ k a p1 w1 = (Return b, p', w').
Proof.
  unfold bind. destruct (m p w) as [[[a|e] p1] w1]; [|discriminate].
  intros H. by exists a, p1, w1.
Qed.

(** Whatever else a character does, it moves the tracker by [tracker_step]. *)
Lemma process_char_tracker c p w :
  tracker_view (snd (fst (_process_char c p w)))
  = tracker_step c (tracker_view p).
Proof.
  unfold _process_char. rewrite track_both.
  rewrite (stable_tracker_dispatch c). apply tracker_view_with_tracker.
Qed.

(** After a run of characters that raised nothing, the brace depth and the
    quote state are those the characters alone determine: tags, handlers and
    the registry have no part in them. *)
Theorem tracker_follows_characters l : forall p w p' w',
  process_chars l p w = (Return tt, p', w') ->
  tracker_view p' = tracker_run (tracker_view p) l.
Proof.
  induction l as [|c l IH]; intros p w p' w' Hrun.
  - inversion Hrun; subst. reflexivity.
  - cbn [process_chars] in Hrun.
    apply bind_return_inv in Hrun as ([] & p1 & w1 & Hc & Hrest).
    rewrite (IH _ _ _ _ Hrest). cbn [tracker_run fold_left].
    pose proof (process_char_tracker c p w) as Ht. rewrite Hc in Ht.
    cbn in Ht. by rewrite Ht.
Qed.

Section TrackerProperty.

Variable I : Z * bool * string -> Prop.
Hypothesis I_init : I (0, false, "").
Hypothesis I_step : forall c t, I t -> I (tracker_step c t).

Let I' (p : FluffyTagProcessor W) : Prop := I (tracker_view p).

Lemma property_process_char c : preserves I' (_process_char c).
Proof. intros p w H. unfold I'. rewrite process_char_tracker. by apply I_step. Qed.

Lemma property_process_chars l : preserves I' (process_chars l).
Proof.
  induction l as [|c l IH]; cbn.
  - apply preserves_ret.
  - apply preserves_bind; [apply property_process_char | intros _; exact IH].
Qed.

Lemma property_process_token tok : preserves I' (process_token tok).
Proof.
  unfold process_token. apply preserves_decorator.
  destruct tok; try apply preserves_ret.
  destruct (str_is_empty s); [apply preserves_ret|].
  destruct (str_is_empty (strip s)); [apply preserves_ret|].
  apply property_process_chars.
Qed.

Lemma property_process_token_each toks : preserves I' (process_token_each toks).
Proof.
  induction toks as [|t toks IH]; cbn.
  - apply preserves_ret.
  - apply preserves_bind; [apply property_process_token | intros _; exact IH].
Qed.

Lemma property_stable {A} (m : M W A) :
  stable_on (@tracker_view W) m -> preserves I' m.
Proof. intros Hm p w Hp. unfold I'. by rewrite Hm. Qed.

Lemma reachable_tracker_property p : reachable p -> I (tracker_view p).
Proof.
  change (reachable p -> I' p).
  induction 1 as [d eh a t| c p w _ IH | tok p w _ IH | toks p w _ IH
                 | s p w _ IH | p w _ IH | p w _ IH
                 | n h a b c d e f p w _ IH | h p w _ IH | t p w _ IH].
  - exact I_init.
  - by apply property_process_char.
  - by apply property_process_token.
  - destruct toks; cbn; try exact IH; by apply property_process_token_each.
  - destruct s; cbn; try exact IH. by apply (property_process_token (PyStr s)).
  - exact I_init.
  - revert IH. apply property_stable. by apply stable_flush.
  - revert IH. apply property_stable. unfold register_handler. stable_steps.
  - revert IH. apply property_stable.
    unfold set_untagged_content_handler. stable_steps.
  - revert IH. apply property_stable.
    unfold set_auto_process_threshold. stable_steps.
Qed.

End TrackerProperty.

Lemma tracker_step_nonneg c t : 0 <= fst (fst t) -> 0 <= fst (fst (tracker_step c t)).
Proof.
  destruct t as [[d q] qc]. unfold tracker_step. cbn [fst]. intros Hd.
  destruct (is_quote c && (0 <? d)); destruct q;
    try destruct (String.eqb (str1 c) qc);
    destruct (char_eqb c lbrace_char); destruct (char_eqb c rbrace_char);
    cbn; lia.
Qed.

(** The brace depth of a reachable processor is never negative: a closing
    brace at depth 0 leaves it at 0. *)
Theorem json_depth_never_negative p : reachable p -> 0 <= json_depth p.
Proof.
  intros Hr.
  apply (reachable_tracker_property (fun t => 0 <= fst (fst t))); try assumption.
  - cbn. lia.
  - apply tracker_step_nonneg.
Qed.

(** Inside a quoted string only the quote that opened it counts: any other
    character, braces and the other quote included, leaves depth and quote
    state alone, and the opening quote met again closes the string and
    clears the record, at the same depth. *)
Theorem inside_quotes_only_matching_quote_counts c p w :
  in_quotes p = true ->
  (str1 c <> quote_char p ->
   tracker_view (snd (fst (_process_char c p w))) = tracker_view p)
  /\ (str1 c = quote_char p -> is_quote c = true -> 0 < json_depth p ->
      tracker_view (snd (fst (_process_char c p w))) = (json_depth p, false, "")).
Proof.
  intros Hq. rewrite process_char_tracker. unfold tracker_view, tracker_step.
  rewrite Hq. split.
  - intros Hne. apply String.eqb_neq in Hne. rewrite Hne.
    by destruct (is_quote c && (0 <? json_depth p)).
  - intros Heq Hc Hd. apply String.eqb_eq in Heq. rewrite Heq, Hc.
    apply Z.ltb_lt in Hd. rewrite Hd. cbn.
    destruct (is_quote_cases c Hc) as [->| ->]; reflexivity.
Qed.

End TrackerMore.

Section BoundaryMore.

Context {W : Type}.
Implicit Types (p : FluffyTagProcessor W) (w : W).

(** With an error handler configured, [process_token] either processes every
    character and never calls it, or stops at the first character that
    raises and calls it once, on that error (wrapped as "unexpected" when it
    is not a [TagProcessorError]) and on the world that character left.  The
    call then returns [None]; if the error handler itself raises, that
    exception leaves [process_token]. *)
Theorem error_reaches_handler_once s p w h :
  error_handler p = Some h ->
  blank s = false ->
  (exists p' w',
      process_chars (chars s) p w = (Return tt, p', w')
      /\ process_token (PyStr s) p w = (Return (Some tt), p', w'))
  \/ (exists pre c post p1 w1 x p' w',
        chars s = (pre ++ c :: post)%list
        /\ process_chars pre p w = (Return tt, p1, w1)
        /\ _process_char c p1 w1 = (Raise x, p', w')
        /\ process_token (PyStr s) p w
           = match h (boundary_error "process_token" x) w' with
             | (w'', None) => (Return None, p', w'')
             | (w'', Some str_e) => (Raise (ExOther str_e), p', w'')
             end).
Proof.
  intros Heh Hb. rewrite (process_token_nonblank s p w Hb).
  unfold error_handler_decorator.
  destruct (process_chars_outcome (chars s) p w)
    as [(p' & w' & H)|(pre & c & post & p1 & w1 & x & p' & w' & Hs & Hpre & Hc & H)].
  - left. exists p', w'. by rewrite H.
  - right. exists pre, c, post, p1, w1, x, p', w'.
    repeat split; try assumption.
    pose proof (stable_error_handler_chars (chars s) p w) as Hst.
    rewrite H in *. cbn in Hst. rewrite Hst, Heh. by destruct x.
Qed.

Lemma process_token_skip tok p w :
  is_fed tok = false -> process_token tok p w = (Return (Some tt), p, w).
Proof.
  intros Hf. destruct tok as [s| | | |]; try reflexivity.
  unfold is_fed in Hf. apply negb_false_iff in Hf. unfold process_token.
  destruct (str_is_empty s); [reflexivity|].
  unfold blank in Hf. by rewrite Hf.
Qed.

Lemma bind_ext {A B} (m : M W A) (k k' : A -> M W B) p w :
  (forall a p1 w1, k a p1 w1 = k' a p1 w1) -> bind m k p w = bind m k' p w.
Proof.
  intros H. unfold bind. by destruct (m p w) as [[[a|e] p1] w1].
Qed.

Lemma process_token_each_filter items : forall p w,
  process_token_each items p w = process_token_each (List.filter is_fed items) p w.
Proof.
  induction items as [|t items IH]; intros p w; [reflexivity|].
  cbn [process_token_each List.filter].
  destruct (is_fed t) eqn:Hf.
  - cbn [process_token_each]. apply bind_ext. intros _ p1 w1. apply IH.
  - rewrite (bind_return _ _ p w (Some tt) p w (process_token_skip t p w Hf)).
    apply IH.
Qed.

Lemma process_token_each_app l1 l2 : forall p w,
  process_token_each (l1 ++ l2) p w
  = bind (process_token_each l1) (fun _ => process_token_each l2) p w.
Proof.
  induction l1 as [|t l1 IH]; intros p w; [reflexivity|].
  cbn [app process_token_each]. unfold bind.
  destruct (process_token t p w) as [[[a|e] p1] w1]; [|reflexivity].
  rewrite IH. reflexivity.
Qed.

(** [process_tokens] takes a list or a tuple, alike, and raises on anything
    else, a bare string included, changing nothing.  Of the items, only the
    non-blank strings count: the others can be struck from the sequence.
    Feeding one sequence after another is feeding their concatenation. *)
Theorem process_tokens_feeds_non_blank_strings items items' p w :
  process_tokens (PyTuple items) p w = process_tokens (PyList items) p w
  /\ process_tokens (PyList items) p w
     = process_tokens (PyList (List.filter is_fed items)) p w
  /\ process_tokens (PyList (items ++ items')) p w
     = bind (process_tokens (PyList items))
            (fun _ => process_tokens (PyList items')) p w
  /\ (forall s, process_tokens (PyStr s) p w
                = (Raise (ExTagProcessorError (TokensMustBeList "str")), p, w))
  /\ process_tokens PyNone p w
     = (Raise (ExTagProcessorError (TokensMustBeList "NoneType")), p, w)
  /\ (forall z, process_tokens (PyInt z) p w
                = (Raise (ExTagProcessorError (TokensMustBeList "int")), p, w)).
Proof.
  repeat split.
  - apply process_token_each_filter.
  - apply process_token_each_app.
Qed.

End BoundaryMore.

Section UntaggedMore.

Context {W : Type}.
Implicit Types (p : FluffyTagProcessor W) (w : W).

Lemma process_untagged_keeps_processor content p w :
  snd (fst (_process_untagged_content content p w)) = p.
Proof. apply (stable_process_untagged_content id). Qed.

Lemma flush_is_flush_untagged p w : flush p w = flush_untagged p w.
Proof.
  unfold flush, bind. destruct (flush_untagged p w) as [[[[]|e] p1] w1];
    [|reflexivity].
  unfold get, when, _debug_log, ret. by destruct (negb _).
Qed.

(** [flush] hands the pending untagged text, trimmed, to the untagged
    handler and empties the buffer; with an empty or blank buffer, or without
    a handler, no callback runs.  If the handler raises, the wrapped error
    leaves [flush] and the buffer is kept.  In every case the stack, the
    lexer mode, the token buffer and the tracker are left alone, so open tags
    stay open. *)
Theorem flush_empties_buffer_keeps_tags p w :
  let text := strip (join (untagged_content p)) in
  (blank (join (untagged_content p)) = true \/ untagged_content_handler p = None ->
   flush p w = (Return tt, set_untagged_content [] p, w))
  /\ (forall h,
        untagged_content_handler p = Some h ->
        blank (join (untagged_content p)) = false ->
        flush p w
        = match h text w with
          | (w1, None) => (Return tt, set_untagged_content [] p, w1)
          | (w1, Some e) =>
              (Raise (ExTagProcessorError
                        (UntaggedHandlerError e (content_preview text))), p, w1)
          end)
  /\ lexer_view (snd (fst (flush p w))) = lexer_view p.
Proof.
  intros text.
  assert (Hnil : untagged_content p = [] -> set_untagged_content [] p = p).
  { intros H. destruct p; cbn in *. by subst. }
  split; [|split].
  - intros Hcase. rewrite flush_is_flush_untagged.
    unfold flush_untagged, bind, get.
    destruct (untagged_content p) as [|c l] eqn:Hbuf.
    { cbn. by rewrite Hnil. }
    cbn [negb when].
    unfold _process_untagged_content, bind, get, try_call, _debug_log, ret, modify.
    destruct (untagged_content_handler p) as [h|].
    + destruct Hcase as [Hb|Hn]; [|discriminate].
      unfold blank in Hb. by rewrite Hb.
    + reflexivity.
  - intros h Hh Hb. rewrite flush_is_flush_untagged.
    unfold flush_untagged, bind, get.
    destruct (untagged_content p) as [|c l] eqn:Hbuf; [discriminate Hb|].
    cbn [negb when].
    unfold _process_untagged_content, bind, get, try_call, _debug_log, ret, modify.
    rewrite Hh. unfold blank in Hb. rewrite Hb. cbn [negb].
    subst text. by destruct (h (strip (join (c :: l))) w) as [w1 [e|]].
  - apply stable_flush; reflexivity.
Qed.

Lemma auto_flush_return p2 w2 p' w' :
  bind get (fun p =>
    when (auto_process_untagged p
          && (auto_process_threshold p <? Z.of_nat (length (untagged_content p))))
      (bind (_process_untagged_content (join (untagged_content p)))
            (fun _ => modify (set_untagged_content [])))) p2 w2
  = (Return tt, p', w') ->
  untagged_content p' = [] \/ (p' = p2 /\ untagged_flush_due p2 = false).
Proof.
  unfold bind at 1. unfold get. fold (untagged_flush_due p2).
  destruct (untagged_flush_due p2); cbn [when].
  - intros H. apply bind_return_inv in H as ([] & p3 & w3 & _ & H').
    inversion H'; subst. by left.
  - intros H. inversion H; subst. by right.
Qed.

Lemma flush_untagged_return p w p1 w1 :
  flush_untagged p w = (Return tt, p1, w1) -> untagged_content p1 = [].
Proof.
  unfold flush_untagged. unfold bind at 1. unfold get.
  destruct (untagged_content p) as [|c l] eqn:Hbuf; cbn [negb when].
  - intros H. inversion H; subst. exact Hbuf.
  - intros H. apply bind_return_inv in H as ([] & p3 & w3 & _ & H').
    by inversion H'.
Qed.

(** With auto-processing on and a threshold that is not negative, the
    untagged buffer never holds more than [auto_process_threshold]
    characters after a character has been processed without error,
    whatever it held before. *)
Theorem untagged_buffer_bounded c p w p' w' :
  auto_process_untagged p = true ->
  0 <= auto_process_threshold p ->
  _process_char c p w = (Return tt, p', w') ->
  Z.of_nat (length (untagged_content p')) <= auto_process_threshold p'.
Proof.
  intros Hauto Hthr Hrun.
  pose proof (stable_process_char (@settings_view W)
                ltac:(done) ltac:(done) ltac:(done) ltac:(done)
                ltac:(done) ltac:(done) ltac:(done) c p w) as Hset.
  rewrite Hrun in Hset. cbn [fst snd] in Hset.
  assert (Hauto' : auto_process_untagged p' = true).
  { rewrite <- Hauto.
    exact (f_equal (fun v => snd (fst v)) Hset). }
  assert (Hthr' : auto_process_threshold p' = auto_process_threshold p)
    by exact (f_equal snd Hset).
  assert (Hcases : untagged_content p' = []
                   \/ untagged_flush_due p' = false).
  { unfold _process_char in Hrun. rewrite track_both in Hrun.
    unfold dispatch_char in Hrun. unfold bind at 1 in Hrun. unfold get in Hrun.
    destruct (char_eqb c lt_char && _ && _).
    - apply bind_return_inv in Hrun as ([] & p1 & w1 & Hfl & Hrest).
      apply flush_untagged_return in Hfl.
      inversion Hrest; subst. by left.
    - apply bind_return_inv in Hrun as ([] & p2 & w2 & _ & Htail).
      apply auto_flush_return in Htail as [H|[-> H]]; [by left | by right]. }
  destruct Hcases as [H|H].
  - rewrite H. cbn. lia.
  - unfold untagged_flush_due in H. rewrite Hauto' in H. cbn in H.
    apply Z.ltb_ge in H. exact H.
Qed.

End UntaggedMore.

(** ** Whole elements *)

Section Classification.

Local Open Scope list_scope.

Lemma chars_join l : chars (join l) = l.
Proof. apply list_ascii_of_string_of_list_ascii. Qed.

Lemma join_chars s : join (chars s) = s.
Proof. apply string_of_list_ascii_of_string. Qed.

(** Word characters are no white space and none of the characters the
    scanner gives a meaning to. *)
Lemma word_char_plain c :
  is_word c = true ->
  is_space c = false /\ is_quote c = false
  /\ char_eqb c lt_char = false /\ char_eqb c gt_char = false
  /\ char_eqb c lbrace_char = false /\ char_eqb c rbrace_char = false
  /\ char_eqb slash_char c = false.
Proof.
  destruct c as [[] [] [] [] [] [] [] []]; vm_compute; intros H;
    first [discriminate H | repeat split].
Qed.

Lemma lstrip_head c l : is_space c = false -> lstrip_chars (c :: l) = c :: l.
Proof. intros H. cbn. by rewrite H. Qed.

Lemma rstrip_last l c : is_space c = false -> rstrip_chars (l ++ [c]) = l ++ [c].
Proof.
  intros H. unfold rstrip_chars. rewrite rev_app_distr. cbn [rev app].
  rewrite lstrip_head by exact H. cbn [rev]. by rewrite rev_involutive.
Qed.

(** [strip] leaves alone a text that neither starts nor ends with white
    space. *)
Lemma strip_id l :
  (forall c, head l = Some c -> is_space c = false) ->
  (forall c, last l = Some c -> is_space c = false) ->
  strip (join l) = join l.
Proof.
  intros Hh Hl. unfold strip. rewrite chars_join.
  destruct l as [|c l]; [reflexivity|].
  rewrite lstrip_head by (by apply Hh).
  destruct (c :: l) as [|c' l'] using rev_ind; [reflexivity|].
  rewrite rstrip_last; [reflexivity|]. apply Hl. apply last_snoc.
Qed.

Lemma Forall_head {A} (P : A -> Prop) l c : Forall P l -> head l = Some c -> P c.
Proof. intros H Hc. destruct l; inversion Hc; subst. by inversion H. Qed.

Lemma Forall_last {A} (P : A -> Prop) l c : Forall P l -> last l = Some c -> P c.
Proof.
  intros H Hc. apply last_Some in Hc as [l' ->].
  apply Forall_app in H as [_ H]. by inversion H.
Qed.

Lemma span_all (f : ascii -> bool) l :
  Forall (fun c => f c = true) l -> span_chars f l = (l, []).
Proof.
  induction 1 as [|c l Hc _ IH]; cbn; [reflexivity|]. by rewrite Hc, IH.
Qed.

(** A non-empty text without white space is one word. *)
Lemma split_one_word l :
  l <> [] -> Forall (fun c => is_space c = false) l ->
  split_maxsplit1 (join l) = [join l].
Proof.
  intros Hne Hl. unfold split_maxsplit1. rewrite chars_join.
  destruct l as [|c l]; [done|].
  rewrite lstrip_head by (by inversion Hl).
  rewrite (span_all (fun c => negb (is_space c)) (c :: l)); [reflexivity|].
  eapply Forall_impl; [exact Hl|]. intros x Hx. cbn in Hx. by rewrite Hx.
Qed.

Lemma slice_token a (pre l : list ascii) c :
  length pre = a ->
  slice a 1 (join (pre ++ l ++ [c])) = join l.
Proof.
  intros Ha. unfold slice. rewrite chars_join. f_equal.
  rewrite drop_app_length' by (symmetry; exact Ha).
  replace (length (pre ++ l ++ [c]) - 1 - a)%nat with (length l)
    by (rewrite !length_app; cbn; lia).
  apply take_app_length.
Qed.

Lemma word_is_name nm :
  nm <> [] -> Forall (fun c => is_word c = true) nm ->
  strip (join nm) = join nm /\ split_maxsplit1 (join nm) = [join nm].
Proof.
  intros Hne Hw.
  assert (Hs : Forall (fun c => is_space c = false) nm).
  { eapply Forall_impl; [exact Hw|]. intros c Hc. cbn in Hc.
    by destruct (word_char_plain c Hc). }
  split.
  - apply strip_id; intros c Hc.
    + exact (Forall_head _ _ _ Hs Hc).
    + exact (Forall_last _ _ _ Hs Hc).
  - by apply split_one_word.
Qed.

(** [<name>], for a name of word characters, is an opening tag of that name
    without attributes. *)
Lemma opening_token_classified {W} nm (p : FluffyTagProcessor W) w :
  nm <> [] -> Forall (fun c => is_word c = true) nm ->
  _process_complete_tag (join (lt_char :: nm ++ [gt_char])) p w
  = _handle_opening_tag (join nm) ∅ p w.
Proof.
  intros Hne Hw. destruct (word_is_name nm Hne Hw) as [Hstrip Hsplit].
  unfold _process_complete_tag.
  rewrite (strip_id (lt_char :: nm ++ [gt_char])).
  2:{ intros c Hc. by inversion Hc. }
  2:{ intros c Hc. change (lt_char :: nm ++ [gt_char])
        with ((lt_char :: nm) ++ [gt_char]) in Hc.
      rewrite last_snoc in Hc. by inversion Hc. }
  assert (Hstart : startswith (join (lt_char :: nm ++ [gt_char])) "</" = false).
  { unfold startswith. rewrite chars_join.
    destruct nm as [|c0 nm']; [done|].
    apply Forall_cons in Hw as [Hc0 _].
    destruct (word_char_plain c0 Hc0) as (_ & _ & _ & _ & _ & _ & Hsl).
    change (chars "</") with [lt_char; slash_char].
    cbn [app prefix_chars]. rewrite Hsl. reflexivity. }
  assert (Hend : endswith (join (lt_char :: nm ++ [gt_char])) "/>" = false).
  { unfold endswith. rewrite chars_join.
    destruct nm as [|cl nm'] using rev_ind; [done|].
    apply Forall_app in Hw as [_ Hw]. apply Forall_cons in Hw as [Hcl _].
    destruct (word_char_plain cl Hcl) as (_ & _ & _ & _ & _ & _ & Hsl).
    change (lt_char :: (nm' ++ [cl]) ++ [gt_char])
      with ((lt_char :: nm' ++ [cl]) ++ [gt_char]).
    rewrite rev_app_distr. cbn [rev app].
    rewrite rev_app_distr. cbn [rev app].
    change (rev (chars "/>")) with [gt_char; slash_char].
    cbn [app prefix_chars]. rewrite Hsl. reflexivity. }
  rewrite Hstart, Hend.
  change (lt_char :: nm ++ [gt_char]) with ([lt_char] ++ nm ++ [gt_char]).
  rewrite (slice_token 1 [lt_char] nm gt_char eq_refl).
  unfold name_and_attributes. rewrite Hstrip, Hsplit. reflexivity.
Qed.

(** [</name>] is a closing tag of that name. *)
Lemma closing_token_classified {W} nm (p : FluffyTagProcessor W) w :
  nm <> [] -> Forall (fun c => is_word c = true) nm ->
  _process_complete_tag (join (lt_char :: slash_char :: nm ++ [gt_char])) p w
  = _handle_closing_tag (join nm) p w.
Proof.
  intros Hne Hw. destruct (word_is_name nm Hne Hw) as [Hstrip _].
  unfold _process_complete_tag.
  rewrite (strip_id (lt_char :: slash_char :: nm ++ [gt_char])).
  2:{ intros c Hc. by inversion Hc. }
  2:{ intros c Hc. change (lt_char :: slash_char :: nm ++ [gt_char])
        with ((lt_char :: slash_char :: nm) ++ [gt_char]) in Hc.
      rewrite last_snoc in Hc. by inversion Hc. }
  replace (startswith (join (lt_char :: slash_char :: nm ++ [gt_char])) "</")
    with true by (unfold startswith; by rewrite chars_join).
  change (lt_char :: slash_char :: nm ++ [gt_char])
    with ([lt_char; slash_char] ++ nm ++ [gt_char]).
  rewrite (slice_token 2 [lt_char; slash_char] nm gt_char eq_refl).
  by rewrite Hstrip.
Qed.

End Classification.

Section Elements.

Context {W : Type}.
Implicit Types (p : FluffyTagProcessor W) (w : W).

Local Open Scope list_scope.

Lemma with_tracker_id p : with_tracker (tracker_view p) p = p.
Proof. by destruct p. Qed.

Lemma token_plain_spec c :
  token_plain c = true ->
  char_eqb c lt_char = false /\ char_eqb c gt_char = false
  /\ char_eqb c lbrace_char = false /\ char_eqb c rbrace_char = false.
Proof.
  unfold token_plain. intros H. apply negb_true_iff in H.
  repeat (apply orb_false_iff in H as [H ?]). by repeat split.
Qed.

Lemma word_char_token_plain c : is_word c = true -> token_plain c = true.
Proof.
  intros H. destruct (word_char_plain c H) as (_ & _ & H1 & H2 & H3 & H4 & _).
  unfold token_plain. by rewrite H1, H2, H3, H4.
Qed.

(** Inside a tag token, at depth 0, a plain character only joins the token
    buffer. *)
Lemma token_char c p w :
  in_tag p = true -> json_depth p = 0 -> untagged_flush_due p = false ->
  token_plain c = true ->
  _process_char c p w
  = (Return tt, set_current_tag (current_tag p ++ [c]) p, w).
Proof.
  intros Hin Hd Hdue Hc.
  destruct (token_plain_spec c Hc) as (Hlt & Hgt & Hl & Hr).
  unfold _process_char.
  rewrite (bind_return _ _ p w tt p w)
    by (apply track_quotes_skip; rewrite Hd; apply andb_false_r).
  rewrite (bind_return _ _ p w tt p w) by (by apply track_depth_skip).
  unfold dispatch_char. unfold bind at 1. unfold get.
  rewrite Hlt. cbn [andb]. rewrite Hin, Hgt.
  unfold bind, modify, when, ret.
  change (auto_process_untagged (set_current_tag (current_tag p ++ [c]) p)
          && (auto_process_threshold (set_current_tag (current_tag p ++ [c]) p)
              <? Z.of_nat (length (untagged_content
                                     (set_current_tag (current_tag p ++ [c]) p)))))
    with (untagged_flush_due p).
  by rewrite Hdue.
Qed.

Lemma token_chars l : forall p w,
  in_tag p = true -> json_depth p = 0 -> untagged_flush_due p = false ->
  Forall (fun c => token_plain c = true) l ->
  process_chars l p w
  = (Return tt, set_current_tag (current_tag p ++ l) p, w).
Proof.
  induction l as [|c l IH]; intros p w Hin Hd Hdue Hl.
  - cbn. rewrite app_nil_r. by destruct p.
  - apply Forall_cons in Hl as [Hc Hl]. cbn [process_chars].
    rewrite (bind_return _ _ p w tt _ w (token_char c p w Hin Hd Hdue Hc)).
    rewrite IH by assumption. cbn. by rewrite <- app_assoc.
Qed.

(** At depth 0, outside quotes and with nothing untagged pending, [<] only
    starts a token. *)
Lemma begin_token p w :
  json_depth p = 0 -> in_quotes p = false -> untagged_content p = [] ->
  _process_char lt_char p w
  = (Return tt, set_current_tag [lt_char] (set_in_tag true p), w).
Proof.
  intros Hd Hq Hbuf. rewrite lt_begins_tag_token by assumption.
  unfold begin_tag_token, flush_untagged, bind, get. by rewrite Hbuf.
Qed.

(** The [>] that completes a token whose handling returns: the token is
    handled, then the scanner leaves the token. *)
Lemma complete_token p w p1 w1 :
  in_tag p = true ->
  _process_complete_tag (join (current_tag p ++ [gt_char]))
    (set_current_tag (current_tag p ++ [gt_char]) p) w = (Return tt, p1, w1) ->
  untagged_flush_due p1 = false ->
  _process_char gt_char p w
  = (Return tt, set_current_tag [] (set_in_tag false p1), w1).
Proof.
  intros Hin Hpct Hdue. unfold _process_char.
  rewrite (bind_return _ _ p w tt p w) by (by apply track_quotes_skip).
  rewrite (bind_return _ _ p w tt p w) by (by apply track_depth_skip).
  unfold dispatch_char. unfold bind at 1. unfold get.
  change (char_eqb gt_char lt_char) with false. cbn [andb]. rewrite Hin.
  change (char_eqb gt_char gt_char) with true. cbn [when].
  unfold bind, modify, get, ret.
  change (current_tag (set_current_tag (current_tag p ++ [gt_char]) p))
    with (current_tag p ++ [gt_char]).
  rewrite Hpct.
  change (auto_process_untagged (set_current_tag [] (set_in_tag false p1))
          && (auto_process_threshold (set_current_tag [] (set_in_tag false p1))
              <? Z.of_nat (length (untagged_content
                                     (set_current_tag [] (set_in_tag false p1))))))
    with (untagged_flush_due p1).
  by rewrite Hdue.
Qed.

(** The shielded body, with the processor it leaves. *)
Lemma shielded_body_run l : forall p w (top : TagContext W) cfg,
  in_tag p = false ->
  last (tag_stack p) = Some top ->
  config top = Some cfg ->
  streaming_callback cfg = None ->
  untagged_flush_due p = false ->
  shielded (tracker_view p) l = true ->
  process_chars l p w
  = (Return tt,
     set_tag_stack (removelast (tag_stack p) ++ [append_all l top])
       (with_tracker (tracker_run (tracker_view p) l) p), w).
Proof.
  induction l as [|c l IH]; intros p w top cfg Hin Htop Hcfg Hcb Hdue Hsh.
  - cbn [process_chars tracker_run fold_left]. rewrite with_tracker_id.
    rewrite append_all_nil.
    apply last_Some in Htop as [st Hst]. rewrite Hst, removelast_last.
    rewrite <- Hst. by destruct p.
  - cbn [shielded] in Hsh. apply andb_true_iff in Hsh as [Hmark Hsh].
    apply negb_true_iff in Hmark.
    cbn [process_chars].
    rewrite (bind_return _ _ p w tt _ w
               (body_char c p w top cfg Hin Htop Hcfg Hcb Hdue Hmark)).
    set (t' := tracker_step c (tracker_view p)) in *.
    rewrite (IH _ w (append_content c top) cfg).
    + cbn [tracker_run fold_left]. fold t'.
      destruct t' as [[d q] qc] eqn:Ht'.
      cbn [with_tracker tag_stack set_tag_stack set_quote_char set_in_quotes
           set_json_depth tracker_view json_depth in_quotes quote_char].
      rewrite removelast_last, append_content_all.
      change (tracker_view
                (set_tag_stack (removelast (tag_stack p) ++ [append_content c top])
                   (set_quote_char qc (set_in_quotes q (set_json_depth d p)))))
        with (d, q, qc).
      change (fold_left (fun t c0 => tracker_step c0 t) l (d, q, qc))
        with (tracker_run (d, q, qc) l).
      destruct (tracker_run (d, q, qc) l) as [[d' q'] qc'].
      by destruct p.
    + by destruct t' as [[d q] qc].
    + destruct t' as [[d q] qc]. cbn. apply last_snoc.
    + exact Hcfg.
    + exact Hcb.
    + by destruct t' as [[d q] qc].
    + replace (tracker_view _) with t'; [exact Hsh|].
      by destruct t' as [[d q] qc].
Qed.

End Elements.

Section ElementRuns.

Context {W : Type}.
Implicit Types (p : FluffyTagProcessor W) (w : W).

Local Open Scope list_scope.

Lemma word_chars_plain nm :
  Forall (fun c => is_word c = true) nm ->
  Forall (fun c => token_plain c = true) nm.
Proof.
  intros H. eapply Forall_impl; [exact H|]. intros c Hc.
  by apply word_char_token_plain.
Qed.

Lemma process_chars_cons c l p w p1 w1 :
  _process_char c p w = (Return tt, p1, w1) ->
  process_chars (c :: l) p w = process_chars l p1 w1.
Proof. intros H. cbn [process_chars]. by rewrite (bind_return _ _ p w tt p1 w1 H). Qed.

Lemma process_chars_snoc l c p w p1 w1 :
  process_chars l p w = (Return tt, p1, w1) ->
  process_chars (l ++ [c]) p w = _process_char c p1 w1.
Proof.
  intros H. rewrite process_chars_app, (bind_return _ _ p w tt p1 w1 H).
  cbn [process_chars]. unfold bind.
  by destruct (_process_char c p1 w1) as [[[[]|e] p2] w2].
Qed.

Lemma open_element_run nm p w cfg w1 :
  json_depth p = 0 -> in_quotes p = false ->
  untagged_content p = [] -> untagged_flush_due p = false ->
  nm <> [] -> Forall (fun c => is_word c = true) nm ->
  tag_configs p !! join nm = Some cfg ->
  allows_nested_of_same_type cfg = true \/ is_inside_tag (join nm) p = false ->
  call_if_configured (on_tag_start_callback cfg) (fun cb => cb (join nm) ∅) w
  = (w1, None) ->
  process_chars (lt_char :: nm ++ [gt_char]) p w
  = (Return tt,
     set_current_tag []
       (set_in_tag false
          (set_tag_stack
             (tag_stack p ++ [new_context (join nm) ∅ cfg (tag_stack p)]) p)),
     w1).
Proof.
  intros Hd Hq Hbuf Hdue Hne Hw Hcfg Hnest Hstart.
  rewrite (process_chars_cons _ _ p w _ w (begin_token p w Hd Hq Hbuf)).
  set (p1 := set_current_tag [lt_char] (set_in_tag true p)).
  rewrite (process_chars_snoc nm gt_char p1 w _ w
             (token_chars nm p1 w eq_refl Hd Hdue (word_chars_plain nm Hw))).
  set (p2 := set_current_tag (current_tag p1 ++ nm) p1).
  rewrite (complete_token p2 w
             (set_tag_stack
                (tag_stack p ++ [new_context (join nm) ∅ cfg (tag_stack p)])
                (set_current_tag (current_tag p2 ++ [gt_char]) p2)) w1).
  - cbn. by destruct p.
  - reflexivity.
  - change (current_tag p2 ++ [gt_char]) with (lt_char :: nm ++ [gt_char]).
    rewrite (opening_token_classified nm _ w Hne Hw).
    exact (opening_tag_run (set_current_tag (lt_char :: nm ++ [gt_char]) p2)
             w (join nm) ∅ cfg w1 Hcfg Hnest Hstart).
  - exact Hdue.
Qed.

Lemma close_element_run nm p w (top : TagContext W) cfg w1 w2 :
  json_depth p = 0 -> in_quotes p = false ->
  untagged_content p = [] -> untagged_flush_due p = false ->
  nm <> [] -> Forall (fun c => is_word c = true) nm ->
  last (tag_stack p) = Some top ->
  name top = join nm ->
  config top = Some cfg ->
  handler cfg (attributes top) (join (content top)) w = (w1, None) ->
  call_if_configured (on_tag_complete_callback cfg)
    (fun cb => cb (name top) (attributes top) (join (content top))) w1
  = (w2, None) ->
  process_chars (lt_char :: slash_char :: nm ++ [gt_char]) p w
  = (Return tt,
     set_current_tag []
       (set_in_tag false (set_tag_stack (removelast (tag_stack p)) p)), w2).
Proof.
  intros Hd Hq Hbuf Hdue Hne Hw Htop Hname Hcfg Hh Hc.
  rewrite (process_chars_cons _ _ p w _ w (begin_token p w Hd Hq Hbuf)).
  set (p1 := set_current_tag [lt_char] (set_in_tag true p)).
  assert (Hplain : Forall (fun c => token_plain c = true) (slash_char :: nm)).
  { apply Forall_cons. split; [reflexivity | by apply word_chars_plain]. }
  change (slash_char :: nm ++ [gt_char]) with ((slash_char :: nm) ++ [gt_char]).
  rewrite (process_chars_snoc (slash_char :: nm) gt_char p1 w _ w
             (token_chars (slash_char :: nm) p1 w eq_refl Hd Hdue Hplain)).
  set (p2 := set_current_tag (current_tag p1 ++ slash_char :: nm) p1).
  rewrite (complete_token p2 w
             (set_tag_stack (removelast (tag_stack p))
                (set_current_tag (current_tag p2 ++ [gt_char]) p2)) w2).
  - cbn. by destruct p.
  - reflexivity.
  - change (current_tag p2 ++ [gt_char])
      with (lt_char :: slash_char :: nm ++ [gt_char]).
    rewrite (closing_token_classified nm _ w Hne Hw), <- Hname.
    exact (matching_close_delivers_content
             (set_current_tag (lt_char :: slash_char :: nm ++ [gt_char]) p2)
             w top cfg w1 w2 Htop Hcfg Hh Hc).
  - exact Hdue.
Qed.

Lemma fed_as_token l p w p' w' :
  process_chars (lt_char :: l) p w = (Return tt, p', w') ->
  process_token (PyStr (join (lt_char :: l))) p w = (Return (Some tt), p', w').
Proof.
  intros Hrun.
  assert (Hb : blank (join (lt_char :: l)) = false).
  { destruct (blank (join (lt_char :: l))) eqn:E; [|reflexivity].
    apply blank_spec in E. rewrite chars_join in E. discriminate. }
  rewrite (process_token_nonblank _ p w Hb). unfold error_handler_decorator.
  by rewrite chars_join, Hrun.
Qed.

End ElementRuns.

Section ElementTheorems.

Context {W : Type}.
Implicit Types (p : FluffyTagProcessor W) (w : W).

Local Open Scope list_scope.

(** The token [<name>], for a registered name of word characters, fed at
    depth 0 with nothing untagged pending: the start callback runs, a fresh
    context without attributes is pushed, and the scanner is back in content
    mode with an empty token buffer. *)
Theorem opening_token_opens nm p w cfg w1 :
  json_depth p = 0 -> in_quotes p = false ->
  untagged_content p = [] -> untagged_flush_due p = false ->
  nm <> [] -> Forall (fun c => is_word c = true) nm ->
  tag_configs p !! join nm = Some cfg ->
  allows_nested_of_same_type cfg = true \/ is_inside_tag (join nm) p = false ->
  call_if_configured (on_tag_start_callback cfg) (fun cb => cb (join nm) ∅) w
  = (w1, None) ->
  process_token (PyStr (join (lt_char :: nm ++ [gt_char]))) p w
  = (Return (Some tt),
     set_current_tag []
       (set_in_tag false
          (set_tag_stack
             (tag_stack p ++ [new_context (join nm) ∅ cfg (tag_stack p)]) p)),
     w1).
Proof.
  intros. apply fed_as_token. by apply open_element_run.
Qed.

(** The token [</name>] fed while the top context has that name: the context
    is popped, its handler gets its attributes and its whole content, then
    the complete callback runs; the scanner is back in content mode. *)
Theorem closing_token_delivers nm p w (top : TagContext W) cfg w1 w2 :
  json_depth p = 0 -> in_quotes p = false ->
  untagged_content p = [] -> untagged_flush_due p = false ->
  nm <> [] -> Forall (fun c => is_word c = true) nm ->
  last (tag_stack p) = Some top ->
  name top = join nm ->
  config top = Some cfg ->
  handler cfg (attributes top) (join (content top)) w = (w1, None) ->
  call_if_configured (on_tag_complete_callback cfg)
    (fun cb => cb (name top) (attributes top) (join (content top))) w1
  = (w2, None) ->
  process_token (PyStr (join (lt_char :: slash_char :: nm ++ [gt_char]))) p w
  = (Return (Some tt),
     set_current_tag []
       (set_in_tag false (set_tag_stack (removelast (tag_stack p)) p)), w2).
Proof.
  intros. apply fed_as_token. by eapply close_element_run.
Qed.

(** A whole element [<name>body</name>] fed as one token, for a registered
    name of word characters without streaming callback and a body in which
    no [<] is taken for a tag start and which ends at depth 0 outside quotes:
    the start callback runs, then the handler on no attributes and exactly
    the body, then the complete callback; the stack is as before. *)
Theorem element_round_trip nm body p w cfg qc w1 w2 w3 :
  json_depth p = 0 -> in_quotes p = false ->
  untagged_content p = [] -> untagged_flush_due p = false ->
  nm <> [] -> Forall (fun c => is_word c = true) nm ->
  tag_configs p !! join nm = Some cfg ->
  allows_nested_of_same_type cfg = true \/ is_inside_tag (join nm) p = false ->
  streaming_callback cfg = None ->
  shielded (tracker_view p) body = true ->
  tracker_run (tracker_view p) body = (0, false, qc) ->
  call_if_configured (on_tag_start_callback cfg) (fun cb => cb (join nm) ∅) w
  = (w1, None) ->
  handler cfg ∅ (join body) w1 = (w2, None) ->
  call_if_configured (on_tag_complete_callback cfg)
    (fun cb => cb (join nm) ∅ (join body)) w2 = (w3, None) ->
  process_token
    (PyStr (join ((lt_char :: nm ++ [gt_char]) ++ body
                  ++ lt_char :: slash_char :: nm ++ [gt_char]))) p w
  = (Return (Some tt),
     set_current_tag [] (set_in_tag false (with_tracker (0, false, qc) p)), w3).
Proof.
  intros Hd Hq Hbuf Hdue Hne Hw Hcfg Hnest Hcb Hsh Hbal Hstart Hh Hc.
  apply (fed_as_token
           ((nm ++ [gt_char]) ++ body
            ++ lt_char :: slash_char :: nm ++ [gt_char])).
  change (lt_char :: (nm ++ [gt_char]) ++ body
          ++ lt_char :: slash_char :: nm ++ [gt_char])
    with ((lt_char :: nm ++ [gt_char])
          ++ body ++ lt_char :: slash_char :: nm ++ [gt_char]).
  set (ctx := new_context (join nm) ∅ cfg (tag_stack p)).
  set (p3 := set_current_tag []
               (set_in_tag false (set_tag_stack (tag_stack p ++ [ctx]) p))).
  rewrite process_chars_app.
  rewrite (bind_return _ _ p w tt p3 w1)
    by (by apply open_element_run).
  rewrite process_chars_app.
  assert (Htop3 : last (tag_stack p3) = Some ctx) by apply last_snoc.
  pose proof (shielded_body_run body p3 w1 ctx cfg eq_refl
                Htop3 eq_refl Hcb Hdue Hsh) as Hbody.
  change (tracker_view p3) with (tracker_view p) in Hbody.
  rewrite Hbal in Hbody.
  rewrite (bind_return _ _ p3 w1 tt _ w1 Hbody).
  set (p4 := set_tag_stack (removelast (tag_stack p3) ++ [append_all body ctx])
               (with_tracker (0, false, qc) p3)).
  rewrite (close_element_run nm p4 w1 (append_all body ctx) cfg w2 w3);
    try done.
  - subst p4 p3. cbn. rewrite !removelast_last. by destruct p.
  - apply last_snoc.
Qed.

End ElementTheorems.

Section StreamingAndSelfClosing.

Context {W : Type}.
Implicit Types (p : FluffyTagProcessor W) (w : W).

Local Open Scope list_scope.

(** With a streaming callback configured, every character that lands in the
    body of the open tag is first appended to the content and then handed
    to the callback, with the attributes of the top context.  If the
    callback raises, the error carries the tag name and the character, and
    the character stays appended. *)
Theorem streaming_callback_sees_each_char c p w (top : TagContext W) cfg cb :
  in_tag p = false ->
  last (tag_stack p) = Some top ->
  config top = Some cfg ->
  streaming_callback cfg = Some cb ->
  untagged_flush_due p = false ->
  marks_tag c (tracker_step c (tracker_view p)) = false ->
  let p' := set_tag_stack (removelast (tag_stack p) ++ [append_content c top])
              (with_tracker (tracker_step c (tracker_view p)) p) in
  _process_char c p w
  = match cb c (attributes top) w with
    | (w', None) => (Return tt, p', w')
    | (w', Some e) =>
        (Raise (ExTagProcessorError (StreamingCallbackError e (name top) c)),
         p', w')
    end.
Proof.
  intros Hin Htop Hcfg Hcb Hdue Hmark p'. subst p'.
  unfold _process_char. rewrite track_both.
  set (t' := tracker_step c (tracker_view p)) in *.
  unfold dispatch_char. unfold bind at 1. unfold get.
  replace (char_eqb c lt_char && negb (in_quotes (with_tracker t' p))
           && (json_depth (with_tracker t' p) =? 0)) with false
    by (by destruct t' as [[d q] qc]).
  replace (in_tag (with_tracker t' p)) with false
    by (by destruct t' as [[d q] qc]).
  replace (last (tag_stack (with_tracker t' p))) with (Some top)
    by (by destruct t' as [[d q] qc]).
  rewrite Hcfg, Hcb.
  unfold bind, modify, ret, when, try_call, get.
  unfold append_to_top.
  replace (tag_stack (with_tracker t' p)) with (tag_stack p)
    by (by destruct t' as [[d q] qc]).
  rewrite Htop.
  destruct (cb c (attributes top) w) as [w' [e|]]; [reflexivity|].
  replace (auto_process_untagged _ && _) with false
    by (by destruct t' as [[d q] qc]).
  reflexivity.
Qed.

Lemma slice_token2 a (pre l : list ascii) c1 c2 :
  length pre = a ->
  slice a 2 (join (pre ++ l ++ [c1; c2])) = join l.
Proof.
  intros Ha. unfold slice. rewrite chars_join. f_equal.
  rewrite drop_app_length' by (symmetry; exact Ha).
  replace (length (pre ++ l ++ [c1; c2]) - 2 - a)%nat with (length l)
    by (rewrite !length_app; cbn; lia).
  apply take_app_length.
Qed.

(** [<name/>] is a self-closing tag of that name without attributes. *)
Lemma self_closing_token_classified nm p w :
  nm <> [] -> Forall (fun c => is_word c = true) nm ->
  _process_complete_tag (join (lt_char :: nm ++ [slash_char; gt_char])) p w
  = _handle_self_closing_tag (join nm) ∅ p w.
Proof.
  intros Hne Hw. destruct (word_is_name nm Hne Hw) as [Hstrip Hsplit].
  unfold _process_complete_tag.
  rewrite (strip_id (lt_char :: nm ++ [slash_char; gt_char])).
  2:{ intros c Hc. by inversion Hc. }
  2:{ intros c Hc.
      change (lt_char :: nm ++ [slash_char; gt_char])
        with ((lt_char :: nm) ++ [slash_char; gt_char]) in Hc.
      change [slash_char; gt_char] with ([slash_char] ++ [gt_char]) in Hc.
      rewrite app_assoc, last_snoc in Hc. by inversion Hc. }
  assert (Hstart :
    startswith (join (lt_char :: nm ++ [slash_char; gt_char])) "</" = false).
  { unfold startswith. rewrite chars_join.
    destruct nm as [|c0 nm']; [done|].
    apply Forall_cons in Hw as [Hc0 _].
    destruct (word_char_plain c0 Hc0) as (_ & _ & _ & _ & _ & _ & Hsl).
    change (chars "</") with [lt_char; slash_char].
    cbn [app prefix_chars]. rewrite Hsl. reflexivity. }
  assert (Hend :
    endswith (join (lt_char :: nm ++ [slash_char; gt_char])) "/>" = true).
  { unfold endswith. rewrite chars_join.
    change (lt_char :: nm ++ [slash_char; gt_char])
      with ((lt_char :: nm) ++ [slash_char; gt_char]).
    rewrite rev_app_distr. reflexivity. }
  rewrite Hstart, Hend.
  change (lt_char :: nm ++ [slash_char; gt_char])
    with ([lt_char] ++ nm ++ [slash_char; gt_char]).
  rewrite (slice_token2 1 [lt_char] nm slash_char gt_char eq_refl).
  unfold name_and_attributes. rewrite Hstrip, Hsplit. reflexivity.
Qed.

(** The token [<name/>], for a registered name of word characters: within
    the processing of its [>] the start callback, the handler on empty
    content and the complete callback run in this order; nothing is pushed
    and the scanner is back in content mode. *)
Theorem self_closing_token_runs_callbacks nm p w cfg w1 w2 w3 :
  json_depth p = 0 -> in_quotes p = false ->
  untagged_content p = [] -> untagged_flush_due p = false ->
  nm <> [] -> Forall (fun c => is_word c = true) nm ->
  tag_configs p !! join nm = Some cfg ->
  call_if_configured (on_tag_start_callback cfg) (fun cb => cb (join nm) ∅) w
  = (w1, None) ->
  handler cfg ∅ "" w1 = (w2, None) ->
  call_if_configured (on_tag_complete_callback cfg)
    (fun cb => cb (join nm) ∅ "") w2 = (w3, None) ->
  process_token (PyStr (join (lt_char :: nm ++ [slash_char; gt_char]))) p w
  = (Return (Some tt), set_current_tag [] (set_in_tag false p), w3).
Proof.
  intros Hd Hq Hbuf Hdue Hne Hw Hcfg Hstart Hh Hc.
  apply fed_as_token.
  rewrite (process_chars_cons _ _ p w _ w (begin_token p w Hd Hq Hbuf)).
  set (p1 := set_current_tag [lt_char] (set_in_tag true p)).
  assert (Hplain : Forall (fun c => token_plain c = true) (nm ++ [slash_char])).
  { apply Forall_app. split; [by apply word_chars_plain|].
    apply Forall_cons. split; [reflexivity | constructor]. }
  change (nm ++ [slash_char; gt_char]) with (nm ++ [slash_char] ++ [gt_char]).
  rewrite app_assoc.
  rewrite (process_chars_snoc (nm ++ [slash_char]) gt_char p1 w _ w
             (token_chars (nm ++ [slash_char]) p1 w eq_refl Hd Hdue Hplain)).
  set (p2 := set_current_tag (current_tag p1 ++ nm ++ [slash_char]) p1).
  rewrite (complete_token p2 w
             (set_current_tag (current_tag p2 ++ [gt_char]) p2) w3).
  - cbn. by destruct p.
  - reflexivity.
  - replace (current_tag p2 ++ [gt_char])
      with (lt_char :: nm ++ [slash_char; gt_char])
      by (cbn; by rewrite <- app_assoc).
    rewrite (self_closing_token_classified nm _ w Hne Hw).
    unfold _handle_self_closing_tag. unfold bind at 1. unfold get.
    change (tag_configs (set_current_tag _ p2)) with (tag_configs p).
    rewrite Hcfg. unfold call_if_configured in *.
    unfold bind, _debug_log, ret, try_call.
    destruct (on_tag_start_callback cfg) as [cs|].
    + rewrite Hstart, Hh.
      destruct (on_tag_complete_callback cfg) as [cc|].
      * by rewrite Hc.
      * by inversion Hc.
    + inversion Hstart; subst. rewrite Hh.
      destruct (on_tag_complete_callback cfg) as [cc|].
      * by rewrite Hc.
      * by inversion Hc.
  - exact Hdue.
Qed.

End StreamingAndSelfClosing.

Section Attributes.

Local Open Scope list_scope.

Lemma span_app_stop (f : ascii -> bool) k r :
  Forall (fun c => f c = true) k ->
  (forall c, head r = Some c -> f c = false) ->
  span_chars f (k ++ r) = (k, r).
Proof.
  intros Hk Hr. induction Hk as [|c k Hc _ IH]; cbn.
  - destruct r as [|c r]; [reflexivity|]. cbn. by rewrite (Hr c eq_refl).
  - by rewrite Hc, IH.
Qed.

Lemma lstrip_spaces ws r :
  Forall (fun c => is_space c = true) ws ->
  (forall c, head r = Some c -> is_space c = false) ->
  lstrip_chars (ws ++ r) = r.
Proof.
  intros Hws Hr. induction Hws as [|c ws Hc _ IH]; cbn.
  - destruct r as [|c r]; [reflexivity|]. cbn. by rewrite (Hr c eq_refl).
  - by rewrite Hc.
Qed.

Lemma findall_skip l : forall n,
  (length l <= n)%nat -> findall_attributes n l = [].
Proof.
  induction l as [|c l IH]; intros n Hn; [reflexivity|].
  destruct n as [|n]; [cbn in Hn; lia|].
  cbn [findall_attributes]. apply IH. cbn in Hn. lia.
Qed.

Lemma quote_not_space q : is_quote q = true -> is_space q = false.
Proof. intros H. by destruct (is_quote_cases q H) as [->| ->]. Qed.

(** One attribute at the head of a text: a name of word characters, an
    equals sign with optional white space around it, and a value between two
    quotes of the same kind that holds neither that quote nor a newline. *)
Lemma match_attribute_one k ws1 ws2 q v rest :
  k <> [] -> Forall (fun c => is_word c = true) k ->
  Forall (fun c => is_space c = true) ws1 ->
  Forall (fun c => is_space c = true) ws2 ->
  is_quote q = true ->
  Forall (fun c => char_eqb c q = false /\ char_eqb c newline_char = false) v ->
  match_attribute (k ++ ws1 ++ eq_char :: ws2 ++ q :: v ++ q :: rest)
  = Some (k, v, rest).
Proof.
  intros Hne Hk Hws1 Hws2 Hq Hv. unfold match_attribute.
  rewrite (span_app_stop is_word k).
  2: exact Hk.
  2:{ intros c Hc. destruct ws1 as [|s ws1]; cbn in Hc; inversion Hc; subst.
      - reflexivity.
      - apply Forall_cons in Hws1 as [Hs _].
        destruct (is_word c) eqn:E; [|reflexivity].
        destruct (word_char_plain c E) as [Hns _]. congruence. }
  destruct k as [|c0 k']; [done|].
  rewrite (lstrip_spaces ws1) by (exact Hws1 || (intros c Hc; by inversion Hc)).
  change (char_eqb eq_char eq_char) with true. cbn match.
  rewrite (lstrip_spaces ws2).
  2: exact Hws2.
  2:{ intros c Hc. inversion Hc; subst. by apply quote_not_space. }
  rewrite Hq.
  rewrite (span_app_stop
             (fun c => negb (char_eqb c q || char_eqb c newline_char)) v).
  - unfold char_eqb. by rewrite Ascii.eqb_refl.
  - eapply Forall_impl; [exact Hv|]. intros c [H1 H2]. cbn. by rewrite H1, H2.
  - intros c Hc. inversion Hc; subst. unfold char_eqb.
    by rewrite Ascii.eqb_refl.
Qed.

Lemma parse_attribute_run k ws1 ws2 q v :
  k <> [] -> Forall (fun c => is_word c = true) k ->
  Forall (fun c => is_space c = true) ws1 ->
  Forall (fun c => is_space c = true) ws2 ->
  is_quote q = true ->
  Forall (fun c => char_eqb c q = false /\ char_eqb c newline_char = false) v ->
  _parse_attributes (join (k ++ ws1 ++ eq_char :: ws2 ++ q :: v ++ [q]))
  = {[join k := join v]}.
Proof.
  intros Hne Hk Hws1 Hws2 Hq Hv. unfold _parse_attributes.
  rewrite chars_join.
  pose proof (match_attribute_one k ws1 ws2 q v [] Hne Hk Hws1 Hws2 Hq Hv)
    as Hm.
  destruct k as [|c0 k']; [done|].
  cbn [app join string_of_list_ascii str_is_empty] in *.
  cbn [findall_attributes]. rewrite Hm.
  rewrite findall_skip by (cbn; lia).
  cbn. apply insert_empty.
Qed.

(** [_parse_attributes] reads back one attribute written as
    [name = 'value'] or with double quotes, with or without white space
    around the equals sign. *)
Theorem parse_single_attribute k ws1 ws2 q v :
  k <> [] -> Forall (fun c => is_word c = true) k ->
  Forall (fun c => is_space c = true) ws1 ->
  Forall (fun c => is_space c = true) ws2 ->
  is_quote q = true ->
  Forall (fun c => char_eqb c q = false /\ char_eqb c newline_char = false) v ->
  _parse_attributes (join (k ++ ws1 ++ eq_char :: ws2 ++ q :: v ++ [q]))
  = {[join k := join v]}.
Proof. apply parse_attribute_run. Qed.

End Attributes.

(** ** The further properties at concrete inputs *)

Section MoreInstances.

Import Trace.

Local Open Scope list_scope.

Lemma register_then_lookup_witness :
  exists p',
    register_handler "a" (fun a c => log (Handler "a" a c))
      true false true None None None fresh [] = (Return tt, p', [])
    /\ tag_configs p' !! "a" = Some (plain_config "a")
    /\ (forall n', n' <> "a" -> tag_configs p' !! n' = tag_configs fresh !! n')
    /\ scanning_view p' = scanning_view fresh.
Proof.
  apply (register_then_lookup fresh [] "a" (fun a c => log (Handler "a" a c))
           true false true None None None).
  discriminate.
Defined.

Lemma threshold_must_be_positive_witness :
  set_auto_process_threshold 0 fresh []
  = (Raise (ExTagProcessorError (InvalidThreshold 0)), fresh, []).
Proof. apply (threshold_must_be_positive fresh [] 0). lia. Defined.

Lemma opening_pushes_context_witness :
  is_inside_tag "a"
    (set_tag_stack
       (tag_stack with_a_b
        ++ [new_context "a" ∅ (plain_config "a") (tag_stack with_a_b)])
       with_a_b) = true.
Proof.
  destruct (opening_pushes_context with_a_b [] "a" ∅ (plain_config "a") [])
    as (_ & _ & H).
  - vm_compute. reflexivity.
  - right. reflexivity.
  - reflexivity.
  - exact H.
Defined.

Lemma start_callback_failure_blocks_push_witness :
  _handle_opening_tag "a" ∅ with_failing_start []
  = (Raise (ExTagProcessorError (TagStartCallbackError "boom" "a" ∅)),
     with_failing_start, [TagStart "a" ∅]).
Proof.
  apply (start_callback_failure_blocks_push with_failing_start [] "a" ∅
           failing_start_config
           (fun n a => log_and_raise (TagStart n a) "boom")).
  - vm_compute. reflexivity.
  - right. reflexivity.
  - reflexivity.
  - reflexivity.
Defined.

Lemma unregistered_tag_is_ignored_witness :
  _handle_opening_tag "zz" ∅ with_a_b [] = (Return tt, with_a_b, [])
  /\ _handle_self_closing_tag "zz" ∅ with_a_b [] = (Return tt, with_a_b, []).
Proof.
  apply (unregistered_tag_is_ignored with_a_b [] "zz" ∅).
  vm_compute. reflexivity.
Defined.

Lemma handler_failure_after_pop_witness :
  _handle_closing_tag "a" open_failing []
  = (Raise (ExTagProcessorError (TagHandlerError "boom" "a" ∅)),
     set_tag_stack (removelast (tag_stack open_failing)) open_failing,
     [Handler "a" ∅ "x"]).
Proof.
  apply (handler_failure_after_pop open_failing [] context_failing
           failing_handler_config).
  - vm_compute. reflexivity.
  - reflexivity.
  - reflexivity.
Defined.

Lemma tracker_follows_characters_witness :
  tracker_view (snd (fst (process_chars (chars "{'<'}x}") fresh [])))
  = tracker_run (tracker_view fresh) (chars "{'<'}x}").
Proof.
  apply (tracker_follows_characters (chars "{'<'}x}") fresh []
           (snd (fst (process_chars (chars "{'<'}x}") fresh [])))
           (snd (process_chars (chars "{'<'}x}") fresh []))).
  vm_compute. reflexivity.
Defined.

Lemma json_depth_never_negative_witness :
  0 <= json_depth (after (process_token (PyStr "}}x")) fresh).
Proof.
  apply (json_depth_never_negative (after (process_token (PyStr "}}x")) fresh)).
  apply (reach_token (PyStr "}}x") fresh []). apply reach_init.
Defined.

Lemma inside_quotes_only_matching_quote_counts_witness :
  let p := after (process_token (PyStr "{'")) fresh in
  tracker_view (snd (fst (_process_char lbrace_char p []))) = tracker_view p.
Proof.
  apply (inside_quotes_only_matching_quote_counts lbrace_char
           (after (process_token (PyStr "{'")) fresh) []).
  - reflexivity.
  - discriminate.
Defined.

Lemma error_reaches_handler_once_witness :
  (exists p' w',
      process_chars (chars "</x>") reporting_a_b [] = (Return tt, p', w')
      /\ process_token (PyStr "</x>") reporting_a_b []
         = (Return (Some tt), p', w'))
  \/ (exists pre c post p1 w1 x p' w',
        chars "</x>" = pre ++ c :: post
        /\ process_chars pre reporting_a_b [] = (Return tt, p1, w1)
        /\ _process_char c p1 w1 = (Raise x, p', w')
        /\ process_token (PyStr "</x>") reporting_a_b []
           = match log (Reported (boundary_error "process_token" x)) w' with
             | (w'', None) => (Return None, p', w'')
             | (w'', Some str_e) => (Raise (ExOther str_e), p', w'')
             end).
Proof.
  apply (error_reaches_handler_once "</x>" reporting_a_b []
           (fun e => log (Reported e))); reflexivity.
Defined.

Lemma untagged_buffer_bounded_witness :
  Z.of_nat (length (untagged_content
                      (snd (fst (_process_char (chr 120) fresh [])))))
  <= auto_process_threshold (snd (fst (_process_char (chr 120) fresh []))).
Proof.
  apply (untagged_buffer_bounded (chr 120) fresh []
           (snd (fst (_process_char (chr 120) fresh [])))
           (snd (_process_char (chr 120) fresh []))).
  - reflexivity.
  - vm_compute. discriminate.
  - vm_compute. reflexivity.
Defined.

Lemma closing_token_on_empty_stack_char_witness :
  _process_char gt_char in_closing_token []
  = (Raise (ExTagProcessorError (NoOpeningTags "x")),
     set_current_tag (current_tag in_closing_token ++ [gt_char]) in_closing_token,
     []).
Proof.
  apply (closing_token_on_empty_stack in_closing_token []); reflexivity.
Defined.

Lemma opening_token_opens_witness :
  process_token (PyStr "<a>") with_a_b []
  = (Return (Some tt),
     set_current_tag []
       (set_in_tag false
          (set_tag_stack
             (tag_stack with_a_b
              ++ [new_context "a" ∅ (plain_config "a") (tag_stack with_a_b)])
             with_a_b)), []).
Proof.
  apply (opening_token_opens (chars "a") with_a_b [] (plain_config "a") []);
    first [reflexivity | discriminate | (right; reflexivity)
          | (vm_compute; reflexivity) | repeat constructor].
Defined.

Lemma closing_token_delivers_witness :
  process_token (PyStr "</a>") open_a []
  = (Return (Some tt),
     set_current_tag []
       (set_in_tag false (set_tag_stack (removelast (tag_stack open_a)) open_a)),
     [Handler "a" ∅ ""]).
Proof.
  apply (closing_token_delivers (chars "a") open_a [] (context_a [])
           (plain_config "a") [Handler "a" ∅ ""]);
    first [reflexivity | discriminate
          | (vm_compute; reflexivity) | repeat constructor].
Defined.

Lemma element_round_trip_witness :
  process_token (PyStr "<a>{'<'}</a>") with_a_b []
  = (Return (Some tt),
     set_current_tag [] (set_in_tag false (with_tracker (0, false, "") with_a_b)),
     [Handler "a" ∅ "{'<'}"]).
Proof.
  apply (element_round_trip (chars "a") (chars "{'<'}") with_a_b []
           (plain_config "a") "" [] [Handler "a" ∅ "{'<'}"]);
    first [reflexivity | discriminate | (right; reflexivity)
          | (vm_compute; reflexivity) | repeat constructor].
Defined.

Lemma streaming_callback_sees_each_char_witness :
  _process_char (chr 120) open_full_a []
  = (Return tt,
     set_tag_stack
       (removelast (tag_stack open_full_a)
        ++ [append_content (chr 120) context_full_a])
       (with_tracker (tracker_step (chr 120) (tracker_view open_full_a))
          open_full_a),
     [Streamed "a" (chr 120) ∅]).
Proof.
  apply (streaming_callback_sees_each_char (chr 120) open_full_a []
           context_full_a (full_config "a" false)
           (fun ch a => log (Streamed "a" ch a)));
    first [reflexivity | (vm_compute; reflexivity)].
Defined.

Lemma self_closing_token_runs_callbacks_witness :
  process_token (PyStr "<a/>") with_full_a []
  = (Return (Some tt), set_current_tag [] (set_in_tag false with_full_a),
     [TagStart "a" ∅; Handler "a" ∅ ""; TagComplete "a" ∅ ""]).
Proof.
  apply (self_closing_token_runs_callbacks (chars "a") with_full_a []
           (full_config "a" false)
           [TagStart "a" ∅] [TagStart "a" ∅; Handler "a" ∅ ""]);
    first [reflexivity | discriminate
          | (vm_compute; reflexivity) | repeat constructor].
Defined.

Lemma parse_single_attribute_witness :
  _parse_attributes "key = 'a b'" = {["key" := "a b"]}.
Proof.
  apply (parse_single_attribute (chars "key") (chars " ") (chars " ")
           squote_char (chars "a b")).
  - discriminate.
  - repeat constructor.
  - repeat constructor.
  - repeat constructor.
  - reflexivity.
  - repeat constructor.
Defined.

End MoreInstances.

Section MoreTokens.

Context {W : Type}.
Implicit Types (p : FluffyTagProcessor W) (w : W).

Local Open Scope list_scope.

(** A [<] taken for a tag start first hands the pending untagged text,
    trimmed, to the untagged handler and empties the buffer.  If that
    handler raises, the tag start is lost: the error leaves [_process_char]
    before [in_tag] is set, and the processor, buffer included, is as
    before. *)
Theorem tag_start_flushes_untagged p w h c0 buf :
  json_depth p = 0 -> in_quotes p = false ->
  untagged_content p = c0 :: buf ->
  untagged_content_handler p = Some h ->
  blank (join (c0 :: buf)) = false ->
  _process_char lt_char p w
  = match h (strip (join (c0 :: buf))) w with
    | (w1, None) =>
        (Return tt,
         set_current_tag [lt_char] (set_in_tag true (set_untagged_content [] p)),
         w1)
    | (w1, Some e) =>
        (Raise (ExTagProcessorError
                  (UntaggedHandlerError e
                     (content_preview (strip (join (c0 :: buf)))))), p, w1)
    end.
Proof.
  intros Hd Hq Hbuf Hh Hb. rewrite lt_begins_tag_token by assumption.
  unfold begin_tag_token, flush_untagged. unfold bind at 1 2. unfold get.
  rewrite Hbuf. cbn [negb when].
  unfold _process_untagged_content, bind, get, try_call, _debug_log, ret, modify.
  rewrite Hh. unfold blank in Hb. rewrite Hb. cbn [negb].
  by destruct (h (strip (join (c0 :: buf))) w) as [w1 [e|]].
Qed.

Lemma space_not_slash c : is_space c = true -> char_eqb slash_char c = false.
Proof.
  intros H. unfold char_eqb. destruct (Ascii.eqb slash_char c) eqn:E;
    [|reflexivity].
  apply Ascii.eqb_eq in E. subst. discriminate.
Qed.

(** A tag token with nothing but white space between its brackets has no
    name: taking the first word fails with an [IndexError], which is no
    [TagProcessorError]; nothing has been changed when it is raised. *)
Theorem empty_tag_token_raises ws p w :
  Forall (fun c => is_space c = true) ws ->
  _process_complete_tag (join (lt_char :: ws ++ [gt_char])) p w
  = (Raise (ExOther "list index out of range"), p, w).
Proof.
  intros Hws. unfold _process_complete_tag.
  rewrite (strip_id (lt_char :: ws ++ [gt_char])).
  2:{ intros c Hc. by inversion Hc. }
  2:{ intros c Hc. change (lt_char :: ws ++ [gt_char])
        with ((lt_char :: ws) ++ [gt_char]) in Hc.
      rewrite last_snoc in Hc. by inversion Hc. }
  assert (Hstart : startswith (join (lt_char :: ws ++ [gt_char])) "</" = false).
  { unfold startswith. rewrite chars_join.
    change (chars "</") with [lt_char; slash_char].
    destruct ws as [|s ws']; [reflexivity|].
    apply Forall_cons in Hws as [Hs _].
    cbn [app prefix_chars]. by rewrite (space_not_slash s Hs). }
  assert (Hend : endswith (join (lt_char :: ws ++ [gt_char])) "/>" = false).
  { unfold endswith. rewrite chars_join.
    change (rev (chars "/>")) with [gt_char; slash_char].
    destruct ws as [|s ws'] using rev_ind; [reflexivity|].
    apply Forall_app in Hws as [_ Hs]. apply Forall_cons in Hs as [Hs _].
    change (lt_char :: (ws' ++ [s]) ++ [gt_char])
      with ((lt_char :: ws' ++ [s]) ++ [gt_char]).
    rewrite rev_app_distr. cbn [rev app].
    rewrite rev_app_distr. cbn [rev app prefix_chars].
    by rewrite (space_not_slash s Hs). }
  rewrite Hstart, Hend.
  change (lt_char :: ws ++ [gt_char]) with ([lt_char] ++ ws ++ [gt_char]).
  rewrite (slice_token 1 [lt_char] ws gt_char eq_refl).
  assert (Hl : lstrip_chars ws = []).
  { apply lstrip_chars_nil. apply forallb_forall. intros c Hc.
    rewrite Forall_forall in Hws. apply Hws. by apply list_elem_of_In. }
  unfold name_and_attributes, strip, split_maxsplit1.
  rewrite !chars_join, Hl. reflexivity.
Qed.

(** A tag token between whose brackets every character is plain, fed at
    depth 0 with nothing untagged pending: the characters gather in the
    token buffer, the token is handled at its [>], and the scanner leaves
    the token. *)
Lemma tag_token_run tk p w p1 w1 :
  json_depth p = 0 -> in_quotes p = false ->
  untagged_content p = [] -> untagged_flush_due p = false ->
  Forall (fun c => token_plain c = true) tk ->
  _process_complete_tag (join (lt_char :: tk ++ [gt_char]))
    (set_current_tag (lt_char :: tk ++ [gt_char]) (set_in_tag true p)) w
  = (Return tt, p1, w1) ->
  untagged_flush_due p1 = false ->
  process_chars (lt_char :: tk ++ [gt_char]) p w
  = (Return tt, set_current_tag [] (set_in_tag false p1), w1).
Proof.
  intros Hd Hq Hbuf Hdue Htk Hpct Hdue1.
  rewrite (process_chars_cons _ _ p w _ w (begin_token p w Hd Hq Hbuf)).
  set (q1 := set_current_tag [lt_char] (set_in_tag true p)).
  rewrite (process_chars_snoc tk gt_char q1 w _ w
             (token_chars tk q1 w eq_refl Hd Hdue Htk)).
  apply complete_token; [reflexivity| |exact Hdue1].
  exact Hpct.
Qed.

(** [<name attrs>]: the first word is the name, the rest goes to the
    attribute parser. *)
Lemma attribute_token_classified nm attr a0 q p w :
  nm <> [] -> Forall (fun c => is_word c = true) nm ->
  head attr = Some a0 -> is_space a0 = false ->
  last attr = Some q -> is_quote q = true ->
  _process_complete_tag
    (join (lt_char :: (nm ++ chr 32 :: attr) ++ [gt_char])) p w
  = _handle_opening_tag (join nm) (_parse_attributes (join attr)) p w.
Proof.
  intros Hne Hw Ha0 Hsp Hlast Hq.
  assert (Hqs : is_space q = false) by (by apply quote_not_space).
  assert (Hqsl : char_eqb slash_char q = false)
    by (by destruct (is_quote_cases q Hq) as [->| ->]).
  assert (Hs : Forall (fun c => is_space c = false) nm).
  { eapply Forall_impl; [exact Hw|]. intros c Hc. cbn in Hc.
    by destruct (word_char_plain c Hc). }
  apply last_Some in Hlast as [attr' Hattr].
  unfold _process_complete_tag.
  rewrite (strip_id (lt_char :: (nm ++ chr 32 :: attr) ++ [gt_char])).
  2:{ intros c Hc. by inversion Hc. }
  2:{ intros c Hc.
      change (lt_char :: (nm ++ chr 32 :: attr) ++ [gt_char])
        with ((lt_char :: nm ++ chr 32 :: attr) ++ [gt_char]) in Hc.
      rewrite last_snoc in Hc. by inversion Hc. }
  assert (Hstart :
    startswith (join (lt_char :: (nm ++ chr 32 :: attr) ++ [gt_char])) "</"
    = false).
  { unfold startswith. rewrite chars_join.
    destruct nm as [|c0 nm']; [done|].
    apply Forall_cons in Hw as [Hc0 _].
    destruct (word_char_plain c0 Hc0) as (_ & _ & _ & _ & _ & _ & Hsl).
    change (chars "</") with [lt_char; slash_char].
    cbn [app prefix_chars]. rewrite Hsl. reflexivity. }
  assert (Hend :
    endswith (join (lt_char :: (nm ++ chr 32 :: attr) ++ [gt_char])) "/>"
    = false).
  { unfold endswith. rewrite chars_join.
    change (rev (chars "/>")) with [gt_char; slash_char].
    rewrite Hattr.
    replace (lt_char :: (nm ++ chr 32 :: attr' ++ [q]) ++ [gt_char])
      with (((lt_char :: nm ++ chr 32 :: attr') ++ [q]) ++ [gt_char])
      by (cbn [app]; rewrite <- (app_assoc nm (chr 32 :: attr') [q]);
          reflexivity).
    rewrite !rev_app_distr. cbn [rev app prefix_chars]. by rewrite Hqsl. }
  rewrite Hstart, Hend.
  change (lt_char :: (nm ++ chr 32 :: attr) ++ [gt_char])
    with ([lt_char] ++ (nm ++ chr 32 :: attr) ++ [gt_char]).
  rewrite (slice_token 1 [lt_char] (nm ++ chr 32 :: attr) gt_char eq_refl).
  rewrite (strip_id (nm ++ chr 32 :: attr)).
  2:{ intros c Hc. destruct nm as [|c0 nm']; [done|]. inversion Hc; subst.
      by apply Forall_cons in Hs as [? _]. }
  2:{ intros c Hc. rewrite Hattr in Hc.
      replace (nm ++ chr 32 :: attr' ++ [q])
        with ((nm ++ chr 32 :: attr') ++ [q]) in Hc
        by (by rewrite <- app_assoc).
      rewrite last_snoc in Hc. inversion Hc; subst. exact Hqs. }
  unfold name_and_attributes, split_maxsplit1. rewrite chars_join.
  destruct nm as [|c0 nm'] eqn:Hnm; [done|]. rewrite <- Hnm in *.
  replace (lstrip_chars (nm ++ chr 32 :: attr)) with (nm ++ chr 32 :: attr).
  2:{ rewrite Hnm. cbn [app]. rewrite lstrip_head; [reflexivity|].
      rewrite Hnm in Hs. by apply Forall_cons in Hs as [? _]. }
  assert (Hspan : span_chars (fun c => negb (is_space c)) (nm ++ chr 32 :: attr)
                  = (nm, chr 32 :: attr)).
  { apply span_app_stop.
    - eapply Forall_impl; [exact Hs|]. intros c Hc. cbn in Hc. by rewrite Hc.
    - intros c Hc. by inversion Hc. }
  rewrite Hnm in Hspan |- *. cbn [app] in Hspan |- *. rewrite Hspan.
  change (lstrip_chars (chr 32 :: attr)) with (lstrip_chars attr).
  destruct attr as [|a1 attr1]; [done|].
  inversion Ha0; subst a1. rewrite lstrip_head by exact Hsp.
  reflexivity.
Qed.

(** The token [<name key='value'>] (or with double quotes), for a registered
    name: a context is pushed whose attributes are the one-entry mapping
    from the key to the value.  The value must be free of the quote, of
    newlines, and of tag brackets and braces: quotes in a tag token do not
    shield them. *)
Theorem opening_token_with_attribute nm k q v p w cfg w1 :
  json_depth p = 0 -> in_quotes p = false ->
  untagged_content p = [] -> untagged_flush_due p = false ->
  nm <> [] -> Forall (fun c => is_word c = true) nm ->
  k <> [] -> Forall (fun c => is_word c = true) k ->
  is_quote q = true ->
  Forall (fun c => char_eqb c q = false /\ char_eqb c newline_char = false) v ->
  Forall (fun c => token_plain c = true) v ->
  tag_configs p !! join nm = Some cfg ->
  allows_nested_of_same_type cfg = true \/ is_inside_tag (join nm) p = false ->
  call_if_configured (on_tag_start_callback cfg)
    (fun cb => cb (join nm) {[join k := join v]}) w = (w1, None) ->
  process_token
    (PyStr (join (lt_char :: (nm ++ chr 32 :: k ++ eq_char :: q :: v ++ [q])
                  ++ [gt_char]))) p w
  = (Return (Some tt),
     set_current_tag []
       (set_in_tag false
          (set_tag_stack
             (tag_stack p
              ++ [new_context (join nm) {[join k := join v]} cfg (tag_stack p)])
             p)), w1).
Proof.
  intros Hd Hq Hbuf Hdue Hne Hw Hk Hkw Hqq Hv Hvp Hcfg Hnest Hstart.
  apply fed_as_token.
  assert (Hqp : token_plain q = true)
    by (by destruct (is_quote_cases q Hqq) as [->| ->]).
  rewrite (tag_token_run (nm ++ chr 32 :: k ++ eq_char :: q :: v ++ [q]) p w
             (set_tag_stack
                (tag_stack p
                 ++ [new_context (join nm) {[join k := join v]} cfg (tag_stack p)])
                (set_current_tag
                   (lt_char :: (nm ++ chr 32 :: k ++ eq_char :: q :: v ++ [q])
                    ++ [gt_char]) (set_in_tag true p))) w1);
    try assumption.
  - cbn. by destruct p.
  - apply Forall_app. split; [by apply word_chars_plain|].
    apply Forall_cons. split; [reflexivity|].
    apply Forall_app. split; [by apply word_chars_plain|].
    apply Forall_cons. split; [reflexivity|].
    apply Forall_cons. split; [exact Hqp|].
    apply Forall_app. split; [exact Hvp|].
    apply Forall_cons. split; [exact Hqp | constructor].
  - destruct k as [|k0 k'] eqn:Hkk; [done|]. rewrite <- Hkk in *.
    assert (Hk0 : is_space k0 = false).
    { rewrite Hkk in Hkw. apply Forall_cons in Hkw as [Hk0 _].
      by destruct (word_char_plain k0 Hk0). }
    rewrite (attribute_token_classified nm
               (k ++ eq_char :: q :: v ++ [q]) k0 q); try assumption.
    + pose proof (parse_attribute_run k [] [] q v Hk Hkw
                    ltac:(constructor) ltac:(constructor) Hqq Hv) as Hp.
      cbn [app] in Hp. rewrite Hp.
      exact (opening_tag_run
               (set_current_tag
                  (lt_char :: (nm ++ chr 32 :: k ++ eq_char :: q :: v ++ [q])
                   ++ [gt_char]) (set_in_tag true p))
               w (join nm) {[join k := join v]} cfg w1 Hcfg Hnest Hstart).
    + by rewrite Hkk.
    + replace (k ++ eq_char :: q :: v ++ [q])
        with ((k ++ eq_char :: q :: v) ++ [q])
        by (rewrite <- app_assoc; reflexivity).
      apply last_snoc.
Qed.

End MoreTokens.

Section TokenInstances.

Import Trace.

Local Open Scope list_scope.

Lemma tag_start_flushes_untagged_witness :
  _process_char lt_char pending_hi []
  = (Return tt,
     set_current_tag [lt_char]
       (set_in_tag true (set_untagged_content [] pending_hi)),
     [Untagged "hi"]).
Proof.
  apply (tag_start_flushes_untagged pending_hi [] (fun c => log (Untagged c))
           (chr 104) [chr 105]); reflexivity.
Defined.

Lemma empty_tag_token_raises_witness :
  _process_complete_tag "<  >" with_a_b []
  = (Raise (ExOther "list index out of range"), with_a_b, []).
Proof.
  apply (empty_tag_token_raises (chars "  ") with_a_b []). repeat constructor.
Defined.

Lemma opening_token_with_attribute_witness :
  process_token (PyStr "<a x='1'>") with_a_b []
  = (Return (Some tt),
     set_current_tag []
       (set_in_tag false
          (set_tag_stack
             (tag_stack with_a_b
              ++ [new_context "a" {["x" := "1"]} (plain_config "a")
                    (tag_stack with_a_b)])
             with_a_b)), []).
Proof.
  apply (opening_token_with_attribute (chars "a") (chars "x") squote_char
           (chars "1") with_a_b [] (plain_config "a") []);
    first [reflexivity | discriminate | (right; reflexivity)
          | (vm_compute; reflexivity) | repeat constructor].
Defined.

End TokenInstances.

(** ** Tokens end to end *)

Section TokenLevel.

Context {W : Type}.
Implicit Types (p : FluffyTagProcessor W) (w : W).

Local Open Scope list_scope.












End TokenLevel.

Section TokenLevelInstances.

Import Trace.

Local Open Scope list_scope.




(** [flush] at a concrete input. *)
Lemma flush_empties_buffer_keeps_tags_witness :
  flush pending_hi [] = (Return tt, set_untagged_content [] pending_hi, [Untagged "hi"]).
Proof.
  destruct (flush_empties_buffer_keeps_tags pending_hi []) as (_ & H & _).
  apply (H (fun c => log (Untagged c))); reflexivity.
Defined.

(** *** Where the claims as stated fail *)



End TokenLevelInstances.
